(** * Source Orbit, VS Code client: request forwarding and event wiring

    A shallow embedding of the two TypeScript modules of the client,

    - [requests.ts]  (the request-forwarding module), and
    - [extension.ts] (activation, commands, editor and git event handlers),

    followed by the properties of the request protocol boundary.

    Objects of the editor host are modelled by the members the code reads.
    Module-level and activation-level variables live in one [State] record.
    Calls that leave the two modules (the language client, the impact views,
    the git helper module, the host windows) are recorded, in order, in a
    trace of [Effect]s; what the outside world answers is read from a [Host]
    record of oracles. *)

From stdpp Require Import base strings list gmap.

Local Open Scope string_scope.
Local Open Scope list_scope.
Local Open Scope nat_scope.
Local Set Warnings "-register-all".

(** ** Host objects *)

(** [vscode.Uri]: the code only calls [toString()] and reads [fsPath]. *)
Record Uri := mkUri {
  uri_toString : string;
  uri_fsPath : string
}.

(** [vscode.WorkspaceFolder]. *)
Record WorkspaceFolder := mkWorkspaceFolder {
  wf_uri : Uri;
  wf_name : string
}.

(** [vscode.TextDocument] and [vscode.TextEditor]; the handler tests
    [e.document] before using it, so the member is optional here. *)
Record TextDocument := mkTextDocument { doc_uri : Uri }.
Record TextEditor := mkTextEditor { document : option TextDocument }.

(** Values that cross the request boundary (JSON). The descriptors of the
    analysis server ([ILEObject], [ImpactedObject]) are such values; the
    client never looks inside them. *)
Inductive Value :=
| VUndefined
| VBool (b : bool)
| VStr (s : string)
| VArr (items : list Value)
| VObj (fields : list (string * Value)).

Definition ILEObject := Value.

(** A promise, by the way it settles. *)
Inductive Promise (A : Type) :=
| Fulfilled (a : A)
| Rejected
| Pending.
Arguments Fulfilled {A} a.
Arguments Rejected {A}.
Arguments Pending {A}.

(** What a call of a request function evaluates to: [undefined] itself, or
    a promise. *)
Inductive Returned :=
| RUndefined
| RPromise (p : Promise Value).

(** [new LanguageClient(id, name, serverOptions, clientOptions)]. *)
Record LanguageClient := mkLanguageClient {
  lc_id : string;
  lc_name : string;
  lc_serverModule : string;
  lc_languages : list string
}.

(** [ObjectsView] (views/objectView): a tree node bound to one workspace
    folder; a view is described by the folder it is bound to, the identity
    of the object made by [new ObjectsView] is not part of the description.
    [ILEObjectTreeItem]: a tree item with an optional resource. *)
Record ObjectsView := mkObjectsView { ov_workspaceFolder : WorkspaceFolder }.
Record ILEObjectTreeItem := mkILEObjectTreeItem { resourceUri : option Uri }.
Record IProject := mkIProject { ip_workspaceFolder : WorkspaceFolder }.

(** The two [ImpactView] instances created by [activate]. *)
Inductive ImpactView := activeImpactView | gitImpactView.

(** Objects of the git extension are mutable and are held by reference. *)
Definition RepositoryRef := nat.
Definition BranchRef := nat.

Record GitAPI := mkGitAPI {
  getRepository : Uri → option RepositoryRef
}.

(** The object heap of the git extension at one instant:
    [repo.state.HEAD] and [head.name]. *)
Record GitHeap := mkGitHeap {
  state_HEAD : RepositoryRef → option BranchRef;
  Branch_name : BranchRef → option string
}.

(** ** Truthiness *)

(** JavaScript truthiness of [string | undefined]. *)
Definition truthy (s : option string) : bool :=
  match s with
  | Some s => negb (String.eqb s "")
  | None => false
  end.

(** ** Subscriptions, jobs, effects, state *)

(** The entries pushed on [context.subscriptions]. A closure is kept as the
    values it captured; [OnRepositoryState] is the listener installed by
    [setupGitEventHandler], which captured [workspaceFolder], [workspaceUri]
    and [head]. *)
Inductive Subscription :=
| CmdLoadProject
| CmdGoToFile
| CmdAutoFixPick
| CmdAutoFix
| TreeDataProvider (viewId : string) (v : ImpactView)
| OnDidChangeActiveTextEditor
| OnDidChangeWorkspaceFolders
| OnRepositoryState (repo : RepositoryRef) (workspaceFolder : WorkspaceFolder)
    (workspaceUri : string) (head : BranchRef).

(** Continuations handed to [then] or standing after an [await]; they run
    once the synchronous part of the current handler is over. *)
Inductive Job :=
| ThenShowImpactFor (v : ImpactView) (files : list Uri)
| ThenShowTextDocument (doc : TextDocument)
| ThenAutoFixChosen (node : ObjectsView) (chosen : option string)
| ThenLoadProjectDone (node : ObjectsView).

(** Calls that leave the two modules. *)
Inductive Effect :=
| SendRequest (lc : LanguageClient) (method : string) (params : list Value)
| ClientStart (lc : LanguageClient)
| ClientStop (lc : LanguageClient)
| ShowImpactFor (v : ImpactView) (uris : list Uri)
| GetChangedFiles (workspaceFolder : WorkspaceFolder)
| ExecuteCommand (command : string) (key : string) (value : bool)
| ShowInformationMessage (message : string) (items : list string)
| OpenTextDocument (uri : Uri)
| ShowTextDocument (doc : TextDocument)
| RefreshObjectsView (node : ObjectsView)
| LoadIBMiProjectExplorer
| PushExtensibleChildren.

(** Module-level and activation-level variables, together with the two
    host-owned containers the code fills ([context.subscriptions], the
    project manager's child providers) and the queue of continuations.
    [lastBranch] and [objectViews] are plain objects used as maps; their
    keys are URI strings and file-system paths, which never name a member
    of [Object.prototype], so a finite map stands for them. *)
Record State := mkState {
  requests_client : option LanguageClient;   (* requests.ts: let client *)
  extension_client : option LanguageClient;  (* extension.ts: let client *)
  lastBranch : gmap string string;           (* git: lastBranch *)
  objectViews : gmap string ObjectsView;     (* activate: objectViews *)
  subscriptions : list Subscription;         (* context.subscriptions *)
  extensibleChildren : bool;                 (* provider pushed or not *)
  microtasks : list Job
}.

(** What the world outside answers during one event. *)
Record Host := mkHost {
  server : string → list Value → Promise Value;
  heap : GitHeap;
  getGitAPI : option GitAPI;
  getDeployGitFiles : WorkspaceFolder → Promise (list Uri);
  showInformationMessage : string → list string → Promise (option string);
  openTextDocument : Uri → Promise TextDocument;
  workspaceFolders : option (list WorkspaceFolder);
  getProjectManager : bool;
  asAbsolutePath : string → string;
  path_join : string → string → string
}.

(** ** The monad of the embedding: state passing with a trace *)

Definition M (A : Type) : Type := State → A * State * list Effect.

#[global] Instance M_ret : MRet M := λ A a s, (a, s, []).
#[global] Instance M_bind : MBind M := λ A B (k : A → M B) (m : M A) (s : State),
  let r1 := m s in
  let r2 := k r1.1.1 r1.1.2 in
  (r2.1.1, r2.1.2, r1.2 ++ r2.2).

(** Reading a variable, assigning, and recording a call. *)
Definition gets {A} (f : State → A) : M A := λ s, (f s, s, []).
Definition modify (f : State → State) : M unit := λ s, ((), f s, []).
Definition emit (e : Effect) : M unit := λ s, ((), s, [e]).

(** The three parts of a finished run. *)
Definition result {A} (r : A * State * list Effect) : A := r.1.1.
Definition final {A} (r : A * State * list Effect) : State := r.1.2.
Definition trace {A} (r : A * State * list Effect) : list Effect := r.2.

(** [for (const x of xs) body(x)]. *)
Fixpoint for_of {A} (xs : list A) (body : A → M unit) : M unit :=
  match xs with
  | [] => mret ()
  | x :: rest => body x;; for_of rest body
  end.

(** Assignments to the variables of the state. *)
Definition set_requests_client (lc : LanguageClient) (s : State) : State :=
  mkState (Some lc) (extension_client s) (lastBranch s) (objectViews s)
    (subscriptions s) (extensibleChildren s) (microtasks s).
Definition set_extension_client (lc : LanguageClient) (s : State) : State :=
  mkState (requests_client s) (Some lc) (lastBranch s) (objectViews s)
    (subscriptions s) (extensibleChildren s) (microtasks s).
Definition set_lastBranch (k v : string) (s : State) : State :=
  mkState (requests_client s) (extension_client s) (<[k:=v]> (lastBranch s))
    (objectViews s) (subscriptions s) (extensibleChildren s) (microtasks s).
Definition set_objectViews (k : string) (v : ObjectsView) (s : State) : State :=
  mkState (requests_client s) (extension_client s) (lastBranch s)
    (<[k:=v]> (objectViews s)) (subscriptions s) (extensibleChildren s)
    (microtasks s).
Definition push_subscriptions (l : list Subscription) (s : State) : State :=
  mkState (requests_client s) (extension_client s) (lastBranch s)
    (objectViews s) (subscriptions s ++ l) (extensibleChildren s)
    (microtasks s).
Definition set_extensibleChildren (s : State) : State :=
  mkState (requests_client s) (extension_client s) (lastBranch s)
    (objectViews s) (subscriptions s) true (microtasks s).
Definition set_microtasks (q : list Job) (s : State) : State :=
  mkState (requests_client s) (extension_client s) (lastBranch s)
    (objectViews s) (subscriptions s) (extensibleChildren s) q.

(** [p.then(k)]: the continuation is queued when [p] is fulfilled; a
    rejected or never-settling promise queues nothing. *)
Definition then_ {A} (p : Promise A) (k : A → Job) : M unit :=
  match p with
  | Fulfilled a => modify (λ s, set_microtasks (microtasks s ++ [k a]) s)
  | _ => mret ()
  end.

(** ** requests.ts *)

Module Requests.

(** [client.sendRequest(method, params)]. *)
Definition sendRequest (h : Host) (lc : LanguageClient) (method : string)
    (params : list Value) : M (Promise Value) :=
  emit (SendRequest lc method params);; mret (server h method params).

Definition setClient (lc : LanguageClient) : M unit :=
  modify (set_requests_client lc).

Definition isReady (h : Host) (workspaceFolder : WorkspaceFolder) : M Returned :=
  client ← gets requests_client;
  match client with
  | None => mret (RPromise (Fulfilled (VBool false)))
  | Some client =>
      result ← sendRequest h client "isReady"
                 [VStr (uri_toString (wf_uri workspaceFolder))];
      mret (RPromise result)
  end.

Definition getResolvedObjects (h : Host) (workspaceFolder : WorkspaceFolder)
    : M Returned :=
  client ← gets requests_client;
  match client with
  | None => mret (RPromise (Fulfilled (VArr [])))
  | Some client =>
      result ← sendRequest h client "getResolvedObjects"
                 [VStr (uri_toString (wf_uri workspaceFolder))];
      mret (RPromise result)
  end.

Definition getDeps (h : Host) (workspaceFolder : WorkspaceFolder)
    (ileObject : ILEObject) : M Returned :=
  client ← gets requests_client;
  match client with
  | None => mret (RPromise (Fulfilled (VArr [])))
  | Some client =>
      result ← sendRequest h client "getDeps"
                 [VStr (uri_toString (wf_uri workspaceFolder)); ileObject];
      mret (RPromise result)
  end.

Definition getImpacts (h : Host) (workspaceFolder : WorkspaceFolder)
    (fileUris : list Uri) : M Returned :=
  client ← gets requests_client;
  match client with
  | None => mret (RPromise (Fulfilled (VArr [])))
  | Some client =>
      result ← sendRequest h client "getImpacts"
                 [VStr (uri_toString (wf_uri workspaceFolder));
                  VArr ((λ uri, VStr (uri_toString uri)) <$> fileUris)];
      mret (RPromise result)
  end.

Definition reloadProject (h : Host) (workspaceFolder : WorkspaceFolder)
    : M Returned :=
  client ← gets requests_client;
  match client with
  | None => mret (RPromise Rejected)
  | Some client =>
      p ← sendRequest h client "reloadProject"
            [VStr (uri_toString (wf_uri workspaceFolder))];
      mret (RPromise p)
  end.

Definition fixProject (h : Host) (workspaceFolder : WorkspaceFolder)
    (suggestion : string) : M Returned :=
  client ← gets requests_client;
  match client with
  | None => mret RUndefined
  | Some client =>
      p ← sendRequest h client "fixProject"
            [VStr (uri_toString (wf_uri workspaceFolder)); VStr suggestion];
      mret (RPromise p)
  end.

End Requests.

(** ** extension.ts *)

(** The events the host delivers to the client. The source registers no
    listener for a saved document; the event is listed because the
    description of the client names it. *)
Inductive Event :=
| DidSaveTextDocument (doc : TextDocument)
| DidChangeActiveTextEditor (e : option TextEditor)
| DidChangeWorkspaceFolders (added : list WorkspaceFolder)
| RepositoryStateChanged (repo : RepositoryRef)
| RunLoadProject (node : option ObjectsView)
| RunGoToFile (node : option ILEObjectTreeItem)
| RunAutoFixPick (node : option ObjectsView)
| RunAutoFix (workspaceFolder : WorkspaceFolder) (type : string)
| ProjectChildrenRequested (iProject : IProject).

Module Extension.

(** [const objectViews = {}] *)
Definition reset_objectViews (s : State) : State :=
  mkState (requests_client s) (extension_client s) (lastBranch s) ∅
    (subscriptions s) (extensibleChildren s) (microtasks s).

(** [await x]: a value that is no promise is awaited as a fulfilled one. *)
Definition await (r : Returned) : Promise Value :=
  match r with
  | RUndefined => Fulfilled VUndefined
  | RPromise p => p
  end.

Definition enableViews : M unit :=
  emit (ExecuteCommand "setContext" "vscode-sourceorbit:projectsLoaded" true).

(** [view.showImpactFor(uris)]: the class is outside the two modules, the
    call is recorded. *)
Definition showImpactFor (v : ImpactView) (uris : list Uri) : M unit :=
  emit (ShowImpactFor v uris).

(** [getChangedFiles(workspaceFolder)], the import of [getDeployGitFiles]. *)
Definition getChangedFiles (h : Host) (workspaceFolder : WorkspaceFolder)
    : M (Promise (list Uri)) :=
  emit (GetChangedFiles workspaceFolder);;
  mret (getDeployGitFiles h workspaceFolder).

(** The callback given to [projectManager.pushExtensibleChildren]. *)
Definition extensibleChildrenOf (iProject : IProject) : M (list ObjectsView) :=
  let fsPath := uri_fsPath (wf_uri (ip_workspaceFolder iProject)) in
  let view := mkObjectsView (ip_workspaceFolder iProject) in
  modify (set_objectViews fsPath view);;
  mret [view].

(** The listener given to [repo.state.onDidChange]. [head] is the object
    read from [repo.state.HEAD] when the listener was installed; its
    [name] is read again, through that same reference, at every event. *)
Definition onRepositoryState (h : Host) (workspaceFolder : WorkspaceFolder)
    (workspaceUri : string) (head : BranchRef) : M unit :=
  match Branch_name (heap h) head with
  | Some currentBranch =>
      if truthy (Some currentBranch) then
        last ← gets (λ s, lastBranch s !! workspaceUri);
        (if truthy last && negb (bool_decide (Some currentBranch = last)) then
           showImpactFor gitImpactView [];;
           _ ← Requests.reloadProject h workspaceFolder;
           mret ()
         else
           files ← getChangedFiles h workspaceFolder;
           then_ files (ThenShowImpactFor gitImpactView));;
        modify (set_lastBranch workspaceUri currentBranch)
      else mret ()
  | None => mret ()
  end.

(** The body of the loop of [setupGitEventHandler] for one folder. *)
Definition setupFolder (h : Host) (gitApi : GitAPI)
    (workspaceFolder : WorkspaceFolder) : M unit :=
  match getRepository gitApi (wf_uri workspaceFolder) with
  | Some repo =>
      let workspaceUri := uri_toString (wf_uri workspaceFolder) in
      match state_HEAD (heap h) repo with
      | Some head =>
          match Branch_name (heap h) head with
          | Some name =>
              if truthy (Some name) then
                modify (set_lastBranch workspaceUri name);;
                modify (push_subscriptions
                          [OnRepositoryState repo workspaceFolder workspaceUri head])
              else mret ()
          | None => mret ()
          end
      | None => mret ()
      end
  | None => mret ()
  end.

Definition setupGitEventHandler (h : Host)
    (workspaceFolders : list WorkspaceFolder) : M unit :=
  match getGitAPI h with
  | Some gitApi => for_of workspaceFolders (setupFolder h gitApi)
  | None => mret ()
  end.

(** [vscode-sourceorbit.objects.loadProject] *)
Definition loadProject (h : Host) (node : option ObjectsView) : M unit :=
  match node with
  | Some node =>
      r ← Requests.reloadProject h (ov_workspaceFolder node);
      then_ (await r) (λ _, ThenLoadProjectDone node)
  | None => mret ()
  end.

(** [vscode-sourceorbit.objects.goToFile] *)
Definition goToFile (h : Host) (node : option ILEObjectTreeItem) : M unit :=
  match node with
  | Some node =>
      match resourceUri node with
      | Some uri =>
          emit (OpenTextDocument uri);;
          then_ (openTextDocument h uri) ThenShowTextDocument
      | None => mret ()
      end
  | None => mret ()
  end.

Definition autoFixItems : list string := ["Cancel"; "File names"; "RPG includes"].

(** [vscode-sourceorbit.objects.autoFix]: the picker is shown. *)
Definition autoFixPick (h : Host) (node : option ObjectsView) : M unit :=
  match node with
  | Some node =>
      let message :=
        "Select auto fix method for " +:+ wf_name (ov_workspaceFolder node) in
      emit (ShowInformationMessage message autoFixItems);;
      then_ (showInformationMessage h message autoFixItems)
            (ThenAutoFixChosen node)
  | None => mret ()
  end.

(** The [switch] on the chosen item. *)
Definition autoFixType (chosen : string) : option string :=
  if String.eqb chosen "File names" then Some "renames"
  else if String.eqb chosen "RPG includes" then Some "includes"
  else None.

(** The continuation of the picker. *)
Definition autoFixChosen (h : Host) (node : ObjectsView)
    (chosen : option string) : M unit :=
  match chosen with
  | Some item =>
      if truthy chosen then
        match autoFixType item with
        | Some type =>
            if truthy (Some type) then
              _ ← Requests.fixProject h (ov_workspaceFolder node) type;
              mret ()
            else mret ()
        | None => mret ()
        end
      else mret ()
  | None => mret ()
  end.

(** [vscode-sourceorbit.autoFix] *)
Definition autoFix (h : Host) (workspaceFolder : WorkspaceFolder)
    (type : string) : M Returned :=
  Requests.fixProject h workspaceFolder type.

(** The listener given to [window.onDidChangeActiveTextEditor];
    [activeImpactView] is an object, hence truthy. *)
Definition onDidChangeActiveTextEditor (e : option TextEditor) : M unit :=
  match e with
  | Some e =>
      match document e with
      | Some doc => showImpactFor activeImpactView [doc_uri doc]
      | None => mret ()
      end
  | None => mret ()
  end.

(** The listener given to [workspace.onDidChangeWorkspaceFolders]. *)
Definition onDidChangeWorkspaceFolders (h : Host)
    (added : list WorkspaceFolder) : M unit :=
  setupGitEventHandler h added.

Definition languages : list string :=
  ["rpgle"; "bnd"; "cl"; "dds.pf"; "dds.lf"; "dds.dspf"; "dds.prtf"; "sql"].

Definition registrations : list Subscription :=
  [CmdLoadProject; CmdGoToFile; CmdAutoFixPick; CmdAutoFix;
   TreeDataProvider "activeImpactView" activeImpactView;
   OnDidChangeActiveTextEditor;
   TreeDataProvider "gitImpactView" gitImpactView;
   OnDidChangeWorkspaceFolders].

Definition activate (h : Host) : M unit :=
  let serverModule := asAbsolutePath h (path_join h "out" "server.js") in
  let client :=
    mkLanguageClient "sourceorder-server" "Source Orbit Server"
      serverModule languages in
  modify (set_extension_client client);;
  emit (ClientStart client);;
  Requests.setClient client;;
  emit LoadIBMiProjectExplorer;;
  modify reset_objectViews;;
  (if getProjectManager h then
     emit PushExtensibleChildren;; modify set_extensibleChildren
   else mret ());;
  modify (push_subscriptions registrations);;
  match workspaceFolders h with
  | Some folders => setupGitEventHandler h folders
  | None => mret ()
  end.

Definition deactivate : M (option unit) :=
  client ← gets extension_client;
  match client with
  | None => mret None
  | Some client => emit (ClientStop client);; mret (Some ())
  end.

(** *** Delivery of events *)

Definition run_job (h : Host) (j : Job) : M unit :=
  match j with
  | ThenShowImpactFor v files => showImpactFor v files
  | ThenShowTextDocument doc => emit (ShowTextDocument doc)
  | ThenAutoFixChosen node chosen => autoFixChosen h node chosen
  | ThenLoadProjectDone node => enableViews;; emit (RefreshObjectsView node)
  end.

(** The queued continuations run in order; none of them queues another. *)
Definition drain (h : Host) : M unit :=
  q ← gets microtasks;
  modify (set_microtasks []);;
  for_of q (run_job h).

(** What one subscription does with one event. *)
Definition listener (h : Host) (ev : Event) (sub : Subscription) : M unit :=
  match sub, ev with
  | CmdLoadProject, RunLoadProject node => loadProject h node
  | CmdGoToFile, RunGoToFile node => goToFile h node
  | CmdAutoFixPick, RunAutoFixPick node => autoFixPick h node
  | CmdAutoFix, RunAutoFix workspaceFolder type =>
      _ ← autoFix h workspaceFolder type; mret ()
  | OnDidChangeActiveTextEditor, DidChangeActiveTextEditor e =>
      onDidChangeActiveTextEditor e
  | OnDidChangeWorkspaceFolders, DidChangeWorkspaceFolders added =>
      onDidChangeWorkspaceFolders h added
  | OnRepositoryState repo workspaceFolder workspaceUri head,
    RepositoryStateChanged r =>
      if bool_decide (repo = r)
      then onRepositoryState h workspaceFolder workspaceUri head
      else mret ()
  | _, _ => mret ()
  end.

(** One listener run to completion: its synchronous part, then the
    continuations it queued. *)
Definition handle (h : Host) (ev : Event) (sub : Subscription) : M unit :=
  listener h ev sub;; drain h.

(** The project manager asks its child providers. *)
Definition provide (ev : Event) : M unit :=
  match ev with
  | ProjectChildrenRequested iProject =>
      pushed ← gets extensibleChildren;
      if (pushed : bool) then _ ← extensibleChildrenOf iProject; mret () else mret ()
  | _ => mret ()
  end.

(** One event: every subscription present when it fires sees it, then the
    queued continuations run. *)
Definition dispatch (h : Host) (ev : Event) : M unit :=
  subs ← gets subscriptions;
  for_of subs (listener h ev);;
  provide ev;;
  drain h.

End Extension.

(** The state before activation; the initial content of [lastBranch]
    belongs to the git helper module. *)
Definition initial (branches : gmap string string) : State :=
  mkState None None branches ∅ [] false [].

(** * Vocabulary of the properties *)

(** ** Calls of the request functions *)

(** A call of one of the six request functions. *)
Inductive Call :=
| CallIsReady (workspaceFolder : WorkspaceFolder)
| CallGetResolvedObjects (workspaceFolder : WorkspaceFolder)
| CallGetDeps (workspaceFolder : WorkspaceFolder) (ileObject : ILEObject)
| CallGetImpacts (workspaceFolder : WorkspaceFolder) (fileUris : list Uri)
| CallReloadProject (workspaceFolder : WorkspaceFolder)
| CallFixProject (workspaceFolder : WorkspaceFolder) (suggestion : string).

(** The function a call stands for, applied to its arguments. *)
Definition perform (h : Host) (c : Call) : M Returned :=
  match c with
  | CallIsReady wf => Requests.isReady h wf
  | CallGetResolvedObjects wf => Requests.getResolvedObjects h wf
  | CallGetDeps wf o => Requests.getDeps h wf o
  | CallGetImpacts wf uris => Requests.getImpacts h wf uris
  | CallReloadProject wf => Requests.reloadProject h wf
  | CallFixProject wf suggestion => Requests.fixProject h wf suggestion
  end.

(** The workspace folder a call is about. *)
Definition folder_of (c : Call) : WorkspaceFolder :=
  match c with
  | CallIsReady wf | CallGetResolvedObjects wf | CallGetDeps wf _
  | CallGetImpacts wf _ | CallReloadProject wf | CallFixProject wf _ => wf
  end.

(** The degraded values the description of the interface lists: an empty
    collection, [false], a rejected promise. The first two are what the
    promise of an [async] function is fulfilled with. *)
Definition listed_degraded (r : Returned) : Prop :=
  r = RPromise (Fulfilled (VArr [])) ∨
  r = RPromise (Fulfilled (VBool false)) ∨
  r = RPromise Rejected.

(** What each function returns without a connection, read off its guard. *)
Definition degraded_value (c : Call) : Returned :=
  match c with
  | CallIsReady _ => RPromise (Fulfilled (VBool false))
  | CallGetResolvedObjects _ | CallGetDeps _ _ | CallGetImpacts _ _ =>
      RPromise (Fulfilled (VArr []))
  | CallReloadProject _ => RPromise Rejected
  | CallFixProject _ _ => RUndefined
  end.

(** The request table of the interface description: name and parameters. *)
Definition documented_request (c : Call) : string * list Value :=
  let workspaceUri := VStr (uri_toString (wf_uri (folder_of c))) in
  match c with
  | CallIsReady _ => ("isReady", [workspaceUri])
  | CallGetResolvedObjects _ => ("getResolvedObjects", [workspaceUri])
  | CallGetDeps _ descriptor => ("getDeps", [workspaceUri; descriptor])
  | CallGetImpacts _ fileUris =>
      ("getImpacts", [workspaceUri; VArr (VStr <$> (uri_toString <$> fileUris))])
  | CallReloadProject _ => ("reloadProject", [workspaceUri])
  | CallFixProject _ kind => ("fixProject", [workspaceUri; VStr kind])
  end.

(** ** Traces *)

(** A request sent to the analysis service. *)
Definition is_request (e : Effect) : bool :=
  match e with
  | SendRequest _ _ _ => true
  | _ => false
  end.

(** A call that asks the analysis service for something: a request, or the
    showing of a non-empty list of files to an impact view. *)
Definition outgoing (e : Effect) : bool :=
  match e with
  | SendRequest _ _ _ => true
  | ShowImpactFor _ (_ :: _) => true
  | _ => false
  end.

(** The number of effects of a trace that satisfy [p]. *)
Fixpoint count (p : Effect → bool) (t : list Effect) : nat :=
  match t with
  | [] => 0
  | e :: t => (if p e then 1 else 0) + count p t
  end.

(** The key under which a workspace folder is kept in [lastBranch]. *)
Definition key_of (workspaceFolder : WorkspaceFolder) : string :=
  uri_toString (wf_uri workspaceFolder).

(** A call that is made on behalf of the workspace with the given URI
    string: a request addressed to it, or a query for its changed files. *)
Definition addressed (workspaceUri : string) (e : Effect) : Prop :=
  match e with
  | SendRequest _ _ (VStr u :: _) => u = workspaceUri
  | GetChangedFiles workspaceFolder => key_of workspaceFolder = workspaceUri
  | _ => False
  end.

(** A continuation that shows files to an impact view. *)
Definition shows_impact (j : Job) : Prop :=
  match j with
  | ThenShowImpactFor _ _ => True
  | _ => False
  end.

(** ** Git wiring *)

(** The conditions under which [setupGitEventHandler] installs a listener
    for a folder: the git API is there, the folder has a repository, the
    repository has a HEAD, and the HEAD has a non-empty name. *)
Definition eligible (h : Host) (workspaceFolder : WorkspaceFolder)
    (repo : RepositoryRef) (head : BranchRef) (name : string) : Prop :=
  (∃ gitApi, getGitAPI h = Some gitApi ∧
             getRepository gitApi (wf_uri workspaceFolder) = Some repo) ∧
  state_HEAD (heap h) repo = Some head ∧
  Branch_name (heap h) head = Some name ∧
  name ≠ "".

(** The folder meets the conditions in the host as it is now. *)
Definition installed (h : Host) (workspaceFolder : WorkspaceFolder) : Prop :=
  ∃ repo head name, eligible h workspaceFolder repo head name.

(** The state after a listener has been installed for a folder. *)
Definition install (workspaceFolder : WorkspaceFolder) (repo : RepositoryRef)
    (head : BranchRef) (name : string) (s : State) : State :=
  let workspaceUri := uri_toString (wf_uri workspaceFolder) in
  push_subscriptions [OnRepositoryState repo workspaceFolder workspaceUri head]
    (set_lastBranch workspaceUri name s).

(** No repository listener is installed under the given key. *)
Definition unwatched (workspaceUri : string) (s : State) : Prop :=
  ∀ repo workspaceFolder head,
    OnRepositoryState repo workspaceFolder workspaceUri head ∉ subscriptions s.

(** Every installed repository listener has its folder's URI string as key,
    and a non-empty branch name is stored under that key. *)
Definition watched (s : State) : Prop :=
  ∀ repo workspaceFolder workspaceUri head,
    OnRepositoryState repo workspaceFolder workspaceUri head ∈ subscriptions s →
    workspaceUri = uri_toString (wf_uri workspaceFolder) ∧
    ∃ last, lastBranch s !! workspaceUri = Some last ∧ last ≠ "".

(** ** States *)

(** The variables no listener assigns. *)
Definition fixed_part (s : State)
    : option LanguageClient * option LanguageClient * gmap string ObjectsView * bool :=
  (requests_client s, extension_client s, objectViews s, extensibleChildren s).

(** The variables only the git wiring assigns. *)
Definition git_part (s : State) : gmap string string * list Subscription :=
  (lastBranch s, subscriptions s).

(** The state of [activate] when it reaches its last statement. *)
Definition started (h : Host) (s : State) : State :=
  let client :=
    mkLanguageClient "sourceorder-server" "Source Orbit Server"
      (asAbsolutePath h (path_join h "out" "server.js")) Extension.languages in
  mkState (Some client) (Some client) (lastBranch s) ∅
    (subscriptions s ++ Extension.registrations)
    (if getProjectManager h then true else extensibleChildren s)
    (microtasks s).

(** A connection is set and the git wiring is consistent. *)
Definition steady (s : State) : Prop :=
  (∃ lc, requests_client s = Some lc) ∧ watched s.

(** The states the client is in when an event arrives: after activation,
    and after every event delivered since. *)
Inductive reachable : State → Prop :=
| reachable_activate (h : Host) (branches : gmap string string) :
    reachable (final (Extension.activate h (initial branches)))
| reachable_dispatch (h : Host) (ev : Event) (s : State) :
    reachable s → reachable (final (Extension.dispatch h ev s)).

(** ** Activation and setup, as functions of the host *)

(** The client [activate] creates. *)
Definition created_client (h : Host) : LanguageClient :=
  mkLanguageClient "sourceorder-server" "Source Orbit Server"
    (asAbsolutePath h (path_join h "out" "server.js")) Extension.languages.

(** What the loop of [setupGitEventHandler] finds for a folder that passes
    all its tests: the repository, its HEAD object and the name of that
    object. *)
Definition installation (h : Host) (workspaceFolder : WorkspaceFolder)
    : option (RepositoryRef * BranchRef * string) :=
  gitApi ← getGitAPI h;
  repo ← getRepository gitApi (wf_uri workspaceFolder);
  head ← state_HEAD (heap h) repo;
  name ← Branch_name (heap h) head;
  if truthy (Some name) then Some (repo, head, name) else None.

(** The listener such a folder gets. *)
Definition listener_for (h : Host) (workspaceFolder : WorkspaceFolder)
    : option Subscription :=
  (λ found : RepositoryRef * BranchRef * string,
     OnRepositoryState found.1.1 workspaceFolder (key_of workspaceFolder) found.1.2)
    <$> installation h workspaceFolder.

(** The entry of [lastBranch] such a folder gets. *)
Definition store_branch (h : Host) (branches : gmap string string)
    (workspaceFolder : WorkspaceFolder) : gmap string string :=
  match installation h workspaceFolder with
  | Some found => <[key_of workspaceFolder := found.2]> branches
  | None => branches
  end.

(** A subscription made by [setupGitEventHandler]. *)
Definition is_repository_listener (sub : Subscription) : Prop :=
  match sub with
  | OnRepositoryState _ _ _ _ => True
  | _ => False
  end.

(** The git wiring of [s'] is that of [s] with repository listeners added
    at the end and with no key of [lastBranch] lost. *)
Definition grown (s s' : State) : Prop :=
  (∃ extra, subscriptions s' = subscriptions s ++ extra ∧
            Forall is_repository_listener extra) ∧
  dom (lastBranch s) ⊆ dom (lastBranch s').

(** Every view in [objectViews] is kept under the file-system path of its
    own workspace folder. *)
Definition views_keyed (s : State) : Prop :=
  ∀ k view, objectViews s !! k = Some view →
    k = uri_fsPath (wf_uri (ov_workspaceFolder view)).

(** The registration of [activate] that listens to an event. *)
Definition registration_of (ev : Event) : option Subscription :=
  match ev with
  | DidChangeActiveTextEditor _ => Some OnDidChangeActiveTextEditor
  | DidChangeWorkspaceFolders _ => Some OnDidChangeWorkspaceFolders
  | RunLoadProject _ => Some CmdLoadProject
  | RunGoToFile _ => Some CmdGoToFile
  | RunAutoFixPick _ => Some CmdAutoFixPick
  | RunAutoFix _ _ => Some CmdAutoFix
  | _ => None
  end.

(** The subscriptions are the registrations of [activate] followed by
    repository listeners. *)
Definition registered_once (s : State) : Prop :=
  ∃ listeners,
    subscriptions s = Extension.registrations ++ listeners ∧
    Forall is_repository_listener listeners.

(** Both client variables hold the client some activation created. *)
Definition connected (s : State) : Prop :=
  ∃ h0, requests_client s = Some (created_client h0) ∧
        extension_client s = Some (created_client h0).

(** The kinds of fix the picker can forward. *)
Definition picker_kind (kind : string) : Prop :=
  kind = "renames" ∨ kind = "includes".

(** ** Repository events *)

(** The subscription is a listener installed on the repository. *)
Definition hears (repo : RepositoryRef) (sub : Subscription) : bool :=
  match sub with
  | OnRepositoryState r _ _ _ => bool_decide (r = repo)
  | _ => false
  end.

(** The listeners installed on a repository, in the order in which an
    event reaches them. *)
Definition heard_by (repo : RepositoryRef) (subs : list Subscription)
    : list Subscription :=
  omap (λ sub, if hears repo sub then Some sub else None) subs.

(** The folder a repository listener was installed for. *)
Definition watched_folder (sub : Subscription) : option WorkspaceFolder :=
  match sub with
  | OnRepositoryState _ workspaceFolder _ _ => Some workspaceFolder
  | _ => None
  end.

(** The folders watched on a repository, one for each listener. *)
Definition watching (repo : RepositoryRef) (subs : list Subscription)
    : list WorkspaceFolder :=
  omap watched_folder (heard_by repo subs).

(** The files the query for the changed files of a folder delivers, when
    it is fulfilled. *)
Definition changed_files (h : Host) (workspaceFolder : WorkspaceFolder)
    : option (list Uri) :=
  match getDeployGitFiles h workspaceFolder with
  | Fulfilled files => Some files
  | _ => None
  end.

(** The showings of changed files to the git-impact view, for the folders
    whose query is fulfilled: as continuations and as calls. *)
Definition showings (h : Host) (folders : list WorkspaceFolder) : list Job :=
  omap (λ wf, ThenShowImpactFor gitImpactView <$> changed_files h wf) folders.
Definition lookups (h : Host) (folders : list WorkspaceFolder) : list Effect :=
  omap (λ wf, ShowImpactFor gitImpactView <$> changed_files h wf) folders.

(** A showing of files to the git-impact view. *)
Definition is_git_showing (e : Effect) : bool :=
  match e with
  | ShowImpactFor gitImpactView _ => true
  | _ => false
  end.

(** The number of requests an event can send at most: one for each
    listener on the repository at a repository state change, one for a
    command that calls a request function, none otherwise. *)
Definition request_bound (ev : Event) (s : State) : nat :=
  match ev with
  | RepositoryStateChanged repo => length (heard_by repo (subscriptions s))
  | RunLoadProject _ | RunAutoFixPick _ | RunAutoFix _ _ => 1
  | _ => 0
  end.

(** * Sample data for the closed instances *)

Definition uriA : Uri := mkUri "file:///proj/a" "/proj/a".
Definition uriB : Uri := mkUri "file:///proj/b" "/proj/b".
Definition fileX : Uri := mkUri "file:///proj/a/x.rpgle" "/proj/a/x.rpgle".
Definition fileY : Uri := mkUri "file:///proj/a/y.sqlrpgle" "/proj/a/y.sqlrpgle".
Definition folderA : WorkspaceFolder := mkWorkspaceFolder uriA "a".
Definition folderB : WorkspaceFolder := mkWorkspaceFolder uriB "b".

(** A host with one repository (reference 1) that holds every folder; its
    HEAD is the branch object 11, whose name is [branch]. *)
Definition sample_host (branch : option string)
    (picked : Promise (option string)) : Host :=
  mkHost (λ _ _, Fulfilled VUndefined)
    (mkGitHeap (λ repo, Some (10 + repo)) (λ _, branch))
    (Some (mkGitAPI (λ _, Some 1)))
    (λ _, Fulfilled [fileX; fileY])
    (λ _ _, picked)
    (λ uri, Fulfilled (mkTextDocument uri))
    (Some [folderA]) true
    (λ p, "/ext/" +:+ p) (λ a b, a +:+ "/" +:+ b).

Definition hostMain : Host := sample_host (Some "main") (Fulfilled (Some "File names")).
Definition hostDev : Host := sample_host (Some "dev") (Fulfilled (Some "RPG includes")).
Definition hostDetached : Host := sample_host None (Fulfilled None).

Definition sampleClient : LanguageClient :=
  mkLanguageClient "sourceorder-server" "Source Orbit Server"
    "/ext/out/server.js" Extension.languages.

(** The state right after activation in [hostMain]. *)
Definition activated : State := final (Extension.activate hostMain (initial ∅)).

Definition projectA : IProject := mkIProject folderA.

(** A host in which repository 1 has a new HEAD object, 12, named [dev];
    the object 11 is still named [main]. *)
Definition hostReplacedHead : Host :=
  mkHost (λ _ _, Fulfilled VUndefined)
    (mkGitHeap (λ _, Some 12) (λ b, if bool_decide (b = 12) then Some "dev" else Some "main"))
    (Some (mkGitAPI (λ _, Some 1)))
    (λ _, Fulfilled [fileX])
    (λ _ _, Fulfilled None)
    (λ uri, Fulfilled (mkTextDocument uri))
    (Some [folderA]) true
    (λ p, "/ext/" +:+ p) (λ a b, a +:+ "/" +:+ b).

(** [hostMain], but the query for the changed files fails. *)
Definition hostRejected : Host :=
  mkHost (λ _ _, Fulfilled VUndefined)
    (mkGitHeap (λ repo, Some (10 + repo)) (λ _, Some "main"))
    (Some (mkGitAPI (λ _, Some 1)))
    (λ _, Rejected)
    (λ _ _, Fulfilled None)
    (λ uri, Fulfilled (mkTextDocument uri))
    (Some [folderA]) true
    (λ p, "/ext/" +:+ p) (λ a b, a +:+ "/" +:+ b).

(** A host with two workspace folders inside one repository. *)
Definition hostTwoFolders (branch : string) : Host :=
  mkHost (λ _ _, Fulfilled VUndefined)
    (mkGitHeap (λ repo, Some (10 + repo)) (λ _, Some branch))
    (Some (mkGitAPI (λ _, Some 1)))
    (λ _, Fulfilled [])
    (λ _ _, Fulfilled None)
    (λ uri, Fulfilled (mkTextDocument uri))
    (Some [folderA; folderB]) true
    (λ p, "/ext/" +:+ p) (λ a b, a +:+ "/" +:+ b).

(** * Tactics *)

Ltac run :=
  unfold result, final, trace;
  cbv [mbind mret M_bind M_ret gets modify emit then_
       Requests.sendRequest Requests.setClient] in *;
  cbn [fst snd] in *.

Ltac unfold_requests :=
  unfold Requests.isReady, Requests.getResolvedObjects, Requests.getDeps,
    Requests.getImpacts, Requests.reloadProject, Requests.fixProject in *.

Ltac crush_listener :=
  unfold Extension.loadProject, Extension.goToFile, Extension.autoFixPick,
    Extension.autoFix, Extension.onDidChangeActiveTextEditor,
    Extension.showImpactFor, Extension.await;
  unfold_requests; run;
  repeat match goal with
    | |- context [match ?x with _ => _ end] =>
        lazymatch x with
        | context [match _ with _ => _ end] => fail
        | _ => destruct x
        end
    end;
  try reflexivity.

(** * Properties *)

(** ** Reasoning about computations *)

Lemma bind_trace {A B} (m : M A) (k : A → M B) (s : State) :
  trace ((m ≫= k) s) = trace (m s) ++ trace (k (result (m s)) (final (m s))).
Proof. reflexivity. Qed.

Lemma bind_final {A B} (m : M A) (k : A → M B) (s : State) :
  final ((m ≫= k) s) = final (k (result (m s)) (final (m s))).
Proof. reflexivity. Qed.

Lemma for_of_cons {A} (x : A) (xs : list A) (body : A → M unit) (s : State) :
  for_of (x :: xs) body s = (body x;; for_of xs body) s.
Proof. reflexivity. Qed.

Lemma for_of_trace_cons {A} (x : A) (xs : list A) (body : A → M unit) (s : State) :
  trace (for_of (x :: xs) body s)
  = trace (body x s) ++ trace (for_of xs body (final (body x s))).
Proof. reflexivity. Qed.

Lemma for_of_final_cons {A} (x : A) (xs : list A) (body : A → M unit) (s : State) :
  final (for_of (x :: xs) body s) = final (for_of xs body (final (body x s))).
Proof. reflexivity. Qed.

(** A relation between the state before and after that is reflexive,
    transitive and kept by the body is kept by the loop. *)
Lemma for_of_final_rel {A} (R : State → State → Prop) (xs : list A)
    (body : A → M unit) :
  (∀ s, R s s) →
  (∀ s1 s2 s3, R s1 s2 → R s2 s3 → R s1 s3) →
  (∀ x s, x ∈ xs → R s (final (body x s))) →
  ∀ s, R s (final (for_of xs body s)).
Proof.
  intros Hrefl Htrans. induction xs as [|x xs IH]; intros Hbody s.
  - apply Hrefl.
  - rewrite for_of_final_cons. eapply Htrans.
    + apply Hbody. left.
    + apply IH. intros y s' Hy. apply Hbody. by right.
Qed.

(** A property of effects that every run of the body keeps is kept by the
    loop. *)
Lemma for_of_trace_Forall {A} (P : Effect → Prop) (xs : list A)
    (body : A → M unit) :
  (∀ x s, x ∈ xs → Forall P (trace (body x s))) →
  ∀ s, Forall P (trace (for_of xs body s)).
Proof.
  induction xs as [|x xs IH]; intros Hbody s.
  - constructor.
  - rewrite for_of_trace_cons. apply Forall_app. split.
    + apply Hbody. left.
    + apply IH. intros y s' Hy. apply Hbody. by right.
Qed.

(** ** The request functions *)

(** *** C9 *)

(** C9. Without a language-client connection [fixProject] returns
    [undefined]: not an empty collection, not [false], not a rejected
    promise; it sends no request and leaves the state as it is. *)
Theorem fixProject_without_client (h : Host) (workspaceFolder : WorkspaceFolder)
    (suggestion : string) (s : State) :
  requests_client s = None →
  let r := Requests.fixProject h workspaceFolder suggestion s in
  result r = RUndefined ∧ trace r = [] ∧ final r = s ∧
  ¬ listed_degraded (result r).
Proof.
  intros Hc r. subst r. unfold Requests.fixProject. run. rewrite Hc. cbn.
  repeat split. intros [H | [H | H]]; discriminate H.
Qed.

Lemma fixProject_without_client_witness :
  requests_client (initial ∅) = None ∧
  result (Requests.fixProject hostMain folderA "renames" (initial ∅)) = RUndefined.
Proof.
  split; [reflexivity |].
  apply (fixProject_without_client hostMain folderA "renames" (initial ∅)).
  reflexivity.
Defined.

(** *** C1 *)

(** C1, as stated, fails: without a connection [fixProject] returns
    [undefined], which is none of the three listed degraded values. *)
Lemma degraded_value_not_always_listed :
  ¬ (∀ (h : Host) (c : Call) (s : State),
       requests_client s = None →
       listed_degraded (result (perform h c s)) ∧ trace (perform h c s) = []).
Proof.
  intros H.
  destruct (H hostMain (CallFixProject folderA "renames") (initial ∅) eq_refl)
    as [[Hd | [Hd | Hd]] _]; vm_compute in Hd; discriminate Hd.
Qed.

(** C1, amended. Without a connection every request function returns its
    own degraded value: [false] for [isReady], an empty list for
    [getResolvedObjects], [getDeps] and [getImpacts], a rejected promise for
    [reloadProject], and [undefined] for [fixProject]. The guard is the
    first statement of each function, so nothing is evaluated before it:
    no request is sent and the state is left as it is. *)
Theorem perform_without_client (h : Host) (c : Call) (s : State) :
  requests_client s = None →
  let r := perform h c s in
  result r = degraded_value c ∧ trace r = [] ∧ final r = s ∧
  match c with
  | CallFixProject _ _ => result r = RUndefined
  | _ => listed_degraded (result r)
  end.
Proof.
  intros Hc r. subst r.
  destruct c; cbn [perform degraded_value];
    unfold Requests.isReady, Requests.getResolvedObjects, Requests.getDeps,
      Requests.getImpacts, Requests.reloadProject, Requests.fixProject;
    run; rewrite Hc; cbn; repeat split; unfold listed_degraded; auto.
Qed.

Lemma perform_without_client_witness :
  requests_client (initial ∅) = None ∧
  result (perform hostMain (CallGetImpacts folderA [fileX]) (initial ∅))
  = RPromise (Fulfilled (VArr [])) ∧
  trace (perform hostMain (CallGetImpacts folderA [fileX]) (initial ∅)) = [].
Proof.
  split; [reflexivity |].
  pose proof (perform_without_client hostMain (CallGetImpacts folderA [fileX])
                (initial ∅) eq_refl) as (Hr & Ht & _).
  split; [exact Hr | exact Ht].
Defined.

(** *** C6 *)

(** C6. With a connection every request function sends exactly one request,
    on that connection, with the name and parameters of the request table;
    the first parameter is the string form of the workspace root URI, and
    the function returns the promise the connection gave back. For
    [getImpacts] the second parameter is the list of the file URIs in
    string form: as long as the input and the same URIs position by
    position. *)
Theorem perform_with_client (h : Host) (c : Call) (s : State)
    (lc : LanguageClient) :
  requests_client s = Some lc →
  let r := perform h c s in
  let name := (documented_request c).1 in
  let params := (documented_request c).2 in
  trace r = [SendRequest lc name params] ∧
  params !! 0 = Some (VStr (uri_toString (wf_uri (folder_of c)))) ∧
  result r = RPromise (server h name params) ∧
  final r = s ∧
  ∀ workspaceFolder fileUris, c = CallGetImpacts workspaceFolder fileUris →
    ∃ items,
      trace r = [SendRequest lc "getImpacts"
                   [VStr (uri_toString (wf_uri workspaceFolder)); VArr items]] ∧
      length items = length fileUris ∧
      ∀ i, items !! i = (λ uri, VStr (uri_toString uri)) <$> (fileUris !! i).
Proof.
  intros Hc r name params. subst r name params.
  assert (Hmap : ∀ l : list Uri,
             VStr <$> (uri_toString <$> l) = (λ uri, VStr (uri_toString uri)) <$> l).
  { intros l. by rewrite <- list_fmap_compose. }
  destruct c; cbn [perform documented_request folder_of fst snd];
    unfold Requests.isReady, Requests.getResolvedObjects, Requests.getDeps,
      Requests.getImpacts, Requests.reloadProject, Requests.fixProject;
    run; rewrite Hc; cbn; rewrite ?Hmap;
    (repeat split; [intros wf' uris' Heq; try discriminate Heq]).
  injection Heq as -> ->.
  eexists. split; [reflexivity |]. split.
  - by rewrite length_fmap.
  - intros i. by rewrite list_lookup_fmap.
Qed.

Lemma perform_with_client_witness :
  requests_client activated = Some sampleClient ∧
  trace (perform hostMain (CallGetImpacts folderA [fileX; fileY]) activated)
  = [SendRequest sampleClient "getImpacts"
       [VStr "file:///proj/a";
        VArr [VStr "file:///proj/a/x.rpgle"; VStr "file:///proj/a/y.sqlrpgle"]]].
Proof.
  split; [reflexivity |].
  exact (proj1 (perform_with_client hostMain
                  (CallGetImpacts folderA [fileX; fileY]) activated
                  sampleClient eq_refl)).
Defined.

(** ** Continuations *)

(** The request functions leave the state as it is. *)
Lemma perform_final (h : Host) (c : Call) (s : State) :
  final (perform h c s) = s.
Proof.
  destruct c; cbn [perform]; unfold_requests; run;
    destruct (requests_client s); reflexivity.
Qed.

(** No continuation changes the state, so none queues another one. *)
Lemma run_job_final (h : Host) (j : Job) (s : State) :
  final (Extension.run_job h j s) = s.
Proof.
  destruct j as [v files | doc | node chosen | node]; cbn [Extension.run_job];
    try reflexivity.
  unfold Extension.autoFixChosen.
  destruct chosen as [item|]; [|reflexivity].
  destruct (truthy (Some item)); [|reflexivity].
  destruct (Extension.autoFixType item) as [type|]; [|reflexivity].
  destruct (truthy (Some type)); [|reflexivity].
  change (final (((Requests.fixProject h (ov_workspaceFolder node) type)
                    ≫= (λ _, mret ())) s) = s).
  rewrite bind_final.
  apply (perform_final h (CallFixProject (ov_workspaceFolder node) type)).
Qed.

Lemma for_of_run_job_final (h : Host) (q : list Job) (s : State) :
  final (for_of q (Extension.run_job h) s) = s.
Proof.
  revert s. induction q as [|j q IH]; intros s; [reflexivity|].
  rewrite for_of_final_cons, run_job_final. apply IH.
Qed.

Lemma drain_final (h : Host) (s : State) :
  final (Extension.drain h s) = set_microtasks [] s.
Proof.
  unfold Extension.drain.
  rewrite bind_final. change (final (gets microtasks s)) with s.
  change (result (gets microtasks s)) with (microtasks s).
  rewrite bind_final.
  change (final (modify (set_microtasks []) s)) with (set_microtasks [] s).
  apply for_of_run_job_final.
Qed.

Lemma drain_trace (h : Host) (s : State) :
  trace (Extension.drain h s)
  = trace (for_of (microtasks s) (Extension.run_job h) (set_microtasks [] s)).
Proof. reflexivity. Qed.

Lemma drain_nil (h : Host) (s : State) :
  microtasks s = [] → Extension.drain h s = ((), s, []).
Proof.
  intros Hq. destruct s as [rc ec lb ov subs ch q]. cbn in Hq. subst q.
  reflexivity.
Qed.

(** ** C5 *)


(** ** C3 *)

(** C3. In the auto-fix picker command, choosing [File names] sends
    [fixProject] with exactly the string [renames], choosing [RPG includes]
    sends it with exactly [includes], and dismissing the picker or choosing
    [Cancel] sends nothing: the only call is the one that shows the
    picker. *)
Theorem autoFix_forwards_choice (h : Host) (node : ObjectsView) (s : State)
    (lc : LanguageClient) :
  requests_client s = Some lc →
  microtasks s = [] →
  let workspaceFolder := ov_workspaceFolder node in
  let message := "Select auto fix method for " +:+ wf_name workspaceFolder in
  let picker := ShowInformationMessage message ["Cancel"; "File names"; "RPG includes"] in
  let chosen := showInformationMessage h message ["Cancel"; "File names"; "RPG includes"] in
  let r := Extension.handle h (RunAutoFixPick (Some node)) CmdAutoFixPick s in
  (chosen = Fulfilled (Some "File names") →
     trace r = [picker;
                SendRequest lc "fixProject"
                  [VStr (uri_toString (wf_uri workspaceFolder)); VStr "renames"]]) ∧
  (chosen = Fulfilled (Some "RPG includes") →
     trace r = [picker;
                SendRequest lc "fixProject"
                  [VStr (uri_toString (wf_uri workspaceFolder)); VStr "includes"]]) ∧
  (chosen = Fulfilled None ∨ chosen = Fulfilled (Some "Cancel") →
     trace r = [picker]).
Proof.
  intros Hc Hq wf message picker chosen r.
  destruct s as [rc ec lb ov subs ch q]. cbn in Hc, Hq. subst rc q.
  subst r. unfold Extension.handle, Extension.listener, Extension.autoFixPick.
  fold wf. fold message. unfold Extension.autoFixItems. fold chosen.
  repeat split.
  - intros ->. reflexivity.
  - intros ->. reflexivity.
  - intros [-> | ->]; reflexivity.
Qed.

Lemma autoFix_forwards_choice_witness :
  trace (Extension.handle hostMain (RunAutoFixPick (Some (mkObjectsView folderA)))
           CmdAutoFixPick activated)
  = [ShowInformationMessage "Select auto fix method for a"
       ["Cancel"; "File names"; "RPG includes"];
     SendRequest sampleClient "fixProject" [VStr "file:///proj/a"; VStr "renames"]].
Proof.
  exact (proj1 (autoFix_forwards_choice hostMain (mkObjectsView folderA) activated
                  sampleClient eq_refl eq_refl) eq_refl).
Defined.

(** ** The repository listener *)

Lemma truthy_Some (x : string) : truthy (Some x) = true ↔ x ≠ "".
Proof.
  unfold truthy. destruct (String.eqb_spec x ""); cbn; split; intros; congruence.
Qed.

Lemma truthy_is_Some (o : option string) :
  truthy o = true → ∃ x, o = Some x ∧ x ≠ "".
Proof.
  destruct o as [x|]; [|discriminate]. intros H. exists x.
  split; [reflexivity | by apply truthy_Some].
Qed.

(** The branch differs from the stored one: the view is cleared, the
    project is reloaded, the stored name is replaced. *)
Lemma onRepositoryState_switched (h : Host) (workspaceFolder : WorkspaceFolder)
    (workspaceUri : string) (head : BranchRef) (s : State)
    (currentBranch last : string) :
  Branch_name (heap h) head = Some currentBranch →
  currentBranch ≠ "" →
  lastBranch s !! workspaceUri = Some last →
  last ≠ "" →
  currentBranch ≠ last →
  Extension.onRepositoryState h workspaceFolder workspaceUri head s
  = ((), set_lastBranch workspaceUri currentBranch s,
     ShowImpactFor gitImpactView []
       :: trace (Requests.reloadProject h workspaceFolder s)).
Proof.
  intros Hname Hcb Hlast Hl Hne.
  unfold Extension.onRepositoryState. rewrite Hname.
  rewrite (proj2 (truthy_Some currentBranch) Hcb).
  unfold Extension.showImpactFor. unfold_requests. run.
  rewrite Hlast, (proj2 (truthy_Some last) Hl).
  rewrite bool_decide_eq_false_2 by congruence. cbn.
  destruct (requests_client s); reflexivity.
Qed.

(** Otherwise (same branch, or nothing usable stored): the changed files
    are asked for, and the view is shown them once they are known. *)
Lemma onRepositoryState_unchanged (h : Host) (workspaceFolder : WorkspaceFolder)
    (workspaceUri : string) (head : BranchRef) (s : State)
    (currentBranch : string) :
  Branch_name (heap h) head = Some currentBranch →
  currentBranch ≠ "" →
  (truthy (lastBranch s !! workspaceUri) = false ∨
   lastBranch s !! workspaceUri = Some currentBranch) →
  Extension.onRepositoryState h workspaceFolder workspaceUri head s
  = ((),
     set_lastBranch workspaceUri currentBranch
       (final (then_ (getDeployGitFiles h workspaceFolder)
                 (ThenShowImpactFor gitImpactView) s)),
     [GetChangedFiles workspaceFolder]).
Proof.
  intros Hname Hcb Hlast.
  unfold Extension.onRepositoryState. rewrite Hname.
  rewrite (proj2 (truthy_Some currentBranch) Hcb).
  unfold Extension.getChangedFiles. run.
  assert (truthy (lastBranch s !! workspaceUri)
          && negb (bool_decide (Some currentBranch = lastBranch s !! workspaceUri))
          = false) as ->.
  { destruct Hlast as [-> | ->]; [reflexivity|].
    rewrite bool_decide_eq_true_2 by reflexivity. apply andb_false_r. }
  cbn. destruct (getDeployGitFiles h workspaceFolder); reflexivity.
Qed.

(** A branch object without a usable name: the listener does nothing. *)
Lemma onRepositoryState_unnamed (h : Host) (workspaceFolder : WorkspaceFolder)
    (workspaceUri : string) (head : BranchRef) (s : State) :
  truthy (Branch_name (heap h) head) = false →
  Extension.onRepositoryState h workspaceFolder workspaceUri head s = ((), s, []).
Proof.
  intros Hname. unfold Extension.onRepositoryState.
  destruct (Branch_name (heap h) head) as [name|]; [|reflexivity].
  by rewrite Hname.
Qed.

(** The listener reads the branch name through the object it captured:
    which object the repository currently has as its HEAD plays no part. *)
Lemma onRepositoryState_captured_head (h : Host) (HEAD' : RepositoryRef → option BranchRef)
    (workspaceFolder : WorkspaceFolder) (workspaceUri : string)
    (head : BranchRef) (s : State) :
  let h' := mkHost (server h) (mkGitHeap HEAD' (Branch_name (heap h)))
              (getGitAPI h) (getDeployGitFiles h) (showInformationMessage h)
              (openTextDocument h) (workspaceFolders h) (getProjectManager h)
              (asAbsolutePath h) (path_join h) in
  Extension.onRepositoryState h' workspaceFolder workspaceUri head s
  = Extension.onRepositoryState h workspaceFolder workspaceUri head s.
Proof. reflexivity. Qed.

(** ** Setting up the git listeners *)

Lemma setupFolder_cases (h : Host) (gitApi : GitAPI)
    (workspaceFolder : WorkspaceFolder) (s : State) :
  getGitAPI h = Some gitApi →
  trace (Extension.setupFolder h gitApi workspaceFolder s) = [] ∧
  ((¬ installed h workspaceFolder ∧
    final (Extension.setupFolder h gitApi workspaceFolder s) = s) ∨
   (∃ repo head name,
      eligible h workspaceFolder repo head name ∧
      final (Extension.setupFolder h gitApi workspaceFolder s)
      = install workspaceFolder repo head name s)).
Proof.
  intros Hapi. unfold Extension.setupFolder, installed, eligible.
  rewrite Hapi.
  destruct (getRepository gitApi (wf_uri workspaceFolder)) as [repo|] eqn:Hrepo;
    [|split; [reflexivity|left; split; [|reflexivity]];
      intros (r & hd & n & (api & Ha & Hr) & _); congruence].
  destruct (state_HEAD (heap h) repo) as [head|] eqn:Hhead;
    [|split; [reflexivity|left; split; [|reflexivity]];
      intros (r & hd & n & (api & Ha & Hr) & Hh & _); congruence].
  destruct (Branch_name (heap h) head) as [name|] eqn:Hname;
    [|split; [reflexivity|left; split; [|reflexivity]];
      intros (r & hd & n & (api & Ha & Hr) & Hh & Hn & _); congruence].
  destruct (truthy (Some name)) eqn:Ht.
  - split; [reflexivity|]. right. exists repo, head, name.
    split; [|reflexivity].
    split; [by exists gitApi|]. split; [done|]. split; [done|].
    by apply truthy_Some.
  - split; [reflexivity|]. left. split; [|reflexivity].
    intros (r & hd & n & (api & Ha & Hr) & Hh & Hn & Hne).
    assert (r = repo) as -> by congruence.
    assert (hd = head) as -> by congruence.
    assert (n = name) as -> by congruence.
    apply truthy_Some in Hne. congruence.
Qed.

(** ** What a listener can change *)

Lemma then_final_parts {A} (p : Promise A) (k : A → Job) (s : State) :
  fixed_part (final (then_ p k s)) = fixed_part s ∧
  git_part (final (then_ p k s)) = git_part s.
Proof. destruct p; split; reflexivity. Qed.

Lemma setupFolder_fixed (h : Host) (gitApi : GitAPI)
    (workspaceFolder : WorkspaceFolder) (s : State) :
  fixed_part (final (Extension.setupFolder h gitApi workspaceFolder s))
  = fixed_part s.
Proof.
  unfold Extension.setupFolder.
  destruct (getRepository gitApi (wf_uri workspaceFolder)) as [repo|];
    [|reflexivity].
  destruct (state_HEAD (heap h) repo) as [head|]; [|reflexivity].
  destruct (Branch_name (heap h) head) as [name|]; [|reflexivity].
  destruct (truthy (Some name)); reflexivity.
Qed.

Lemma setupGitEventHandler_fixed (h : Host) (folders : list WorkspaceFolder)
    (s : State) :
  fixed_part (final (Extension.setupGitEventHandler h folders s)) = fixed_part s.
Proof.
  unfold Extension.setupGitEventHandler.
  destruct (getGitAPI h) as [gitApi|]; [|reflexivity].
  apply (for_of_final_rel (λ s1 s2, fixed_part s2 = fixed_part s1)).
  - reflexivity.
  - intros s1 s2 s3 H12 H23. by rewrite H23.
  - intros wf s' _. apply setupFolder_fixed.
Qed.

Lemma setupGitEventHandler_trace (h : Host) (folders : list WorkspaceFolder)
    (s : State) :
  trace (Extension.setupGitEventHandler h folders s) = [].
Proof.
  unfold Extension.setupGitEventHandler.
  destruct (getGitAPI h) as [gitApi|] eqn:Hapi; [|reflexivity].
  revert s. induction folders as [|wf folders IH]; intros s; [reflexivity|].
  rewrite for_of_trace_cons, IH.
  by rewrite (proj1 (setupFolder_cases h gitApi wf s Hapi)).
Qed.

Lemma setupGitEventHandler_queue (h : Host) (folders : list WorkspaceFolder)
    (s : State) :
  microtasks (final (Extension.setupGitEventHandler h folders s)) = microtasks s.
Proof.
  unfold Extension.setupGitEventHandler.
  destruct (getGitAPI h) as [gitApi|] eqn:Hapi; [|done].
  apply (for_of_final_rel (λ s1 s2, microtasks s2 = microtasks s1)).
  - reflexivity.
  - intros s1 s2 s3 H12 H23. by rewrite H23.
  - intros wf s' _.
    destruct (setupFolder_cases h gitApi wf s' Hapi)
      as [_ [[_ ->] | (repo & head & name & _ & ->)]]; done.
Qed.

Lemma onRepositoryState_fixed (h : Host) (workspaceFolder : WorkspaceFolder)
    (workspaceUri : string) (head : BranchRef) (s : State) :
  fixed_part (final (Extension.onRepositoryState h workspaceFolder
                       workspaceUri head s)) = fixed_part s ∧
  subscriptions (final (Extension.onRepositoryState h workspaceFolder
                          workspaceUri head s)) = subscriptions s.
Proof.
  unfold Extension.onRepositoryState.
  destruct (Branch_name (heap h) head) as [cb|]; [|split; reflexivity].
  destruct (truthy (Some cb)); [|split; reflexivity].
  unfold Extension.showImpactFor, Extension.getChangedFiles. unfold_requests.
  run.
  destruct (truthy (lastBranch s !! workspaceUri)
            && negb (bool_decide (Some cb = lastBranch s !! workspaceUri))).
  - cbn. destruct (requests_client s); split; reflexivity.
  - cbn. destruct (getDeployGitFiles h workspaceFolder); split; reflexivity.
Qed.

(** No listener assigns a client variable, [objectViews] or the provider
    flag. *)
Lemma listener_fixed (h : Host) (ev : Event) (sub : Subscription) (s : State) :
  fixed_part (final (Extension.listener h ev sub s)) = fixed_part s.
Proof.
  destruct sub, ev; cbn [Extension.listener]; try reflexivity.
  - crush_listener.
  - crush_listener.
  - crush_listener.
  - crush_listener.
  - crush_listener.
  - apply setupGitEventHandler_fixed.
  - case_bool_decide; [|reflexivity]. apply onRepositoryState_fixed.
Qed.

(** Only the listeners of workspace-folder and repository events assign
    [lastBranch] or push a subscription. *)
Lemma listener_git (h : Host) (ev : Event) (sub : Subscription) (s : State) :
  (∀ added, ev ≠ DidChangeWorkspaceFolders added) →
  (∀ repo, ev ≠ RepositoryStateChanged repo) →
  git_part (final (Extension.listener h ev sub s)) = git_part s.
Proof.
  intros Hwf Hrepo.
  destruct sub, ev; cbn [Extension.listener]; try reflexivity;
    try (by destruct (Hwf added)); try (by destruct (Hrepo repo));
    try (by destruct (Hrepo repo0)).
  - crush_listener.
  - crush_listener.
  - crush_listener.
  - crush_listener.
  - crush_listener.
Qed.

(** The listener of repository events pushes no subscription. *)
Lemma listener_repository_subscriptions (h : Host) (repo : RepositoryRef)
    (sub : Subscription) (s : State) :
  subscriptions (final (Extension.listener h (RepositoryStateChanged repo) sub s))
  = subscriptions s.
Proof.
  destruct sub; cbn [Extension.listener]; try reflexivity.
  case_bool_decide; [|reflexivity]. apply onRepositoryState_fixed.
Qed.

(** ** Activation *)

Lemma activate_final (h : Host) (s : State) :
  final (Extension.activate h s)
  = final (match workspaceFolders h with
           | Some folders => Extension.setupGitEventHandler h folders
           | None => mret ()
           end (started h s)).
Proof.
  unfold Extension.activate, started. rewrite !bind_final.
  destruct (getProjectManager h); reflexivity.
Qed.

(** ** One event *)

Lemma dispatch_final (h : Host) (ev : Event) (s : State) :
  final (Extension.dispatch h ev s)
  = set_microtasks []
      (final (Extension.provide ev
                (final (for_of (subscriptions s) (Extension.listener h ev) s)))).
Proof.
  unfold Extension.dispatch.
  rewrite bind_final. change (final (gets subscriptions s)) with s.
  change (result (gets subscriptions s)) with (subscriptions s).
  rewrite !bind_final. apply drain_final.
Qed.

Lemma provide_parts (ev : Event) (s : State) :
  let s' := final (Extension.provide ev s) in
  requests_client s' = requests_client s ∧
  extension_client s' = extension_client s ∧
  extensibleChildren s' = extensibleChildren s ∧
  git_part s' = git_part s ∧
  microtasks s' = microtasks s ∧
  ((∀ iProject, ev ≠ ProjectChildrenRequested iProject) →
   objectViews s' = objectViews s).
Proof.
  destruct ev; cbn [Extension.provide]; try (repeat split; reflexivity).
  unfold Extension.extensibleChildrenOf. run.
  destruct (extensibleChildren s) eqn:Hpushed; cbn; rewrite ?Hpushed;
    repeat split; try reflexivity; intros Hev; by destruct (Hev iProject).
Qed.

Lemma listeners_fixed (h : Host) (ev : Event) (subs : list Subscription)
    (s : State) :
  fixed_part (final (for_of subs (Extension.listener h ev) s)) = fixed_part s.
Proof.
  apply (for_of_final_rel (λ s1 s2, fixed_part s2 = fixed_part s1)).
  - reflexivity.
  - intros s1 s2 s3 H12 H23. by rewrite H23.
  - intros sub s' _. apply listener_fixed.
Qed.


Lemma listeners_repository_subscriptions (h : Host) (repo : RepositoryRef)
    (subs : list Subscription) (s : State) :
  subscriptions (final (for_of subs
                          (Extension.listener h (RepositoryStateChanged repo)) s))
  = subscriptions s.
Proof.
  apply (for_of_final_rel (λ s1 s2, subscriptions s2 = subscriptions s1)).
  - reflexivity.
  - intros s1 s2 s3 H12 H23. by rewrite H23.
  - intros sub s' _. apply listener_repository_subscriptions.
Qed.

(** ** C7 *)




(** ** States between events *)

Lemma steady_same (s s' : State) :
  requests_client s' = requests_client s →
  git_part s' = git_part s →
  steady s → steady s'.
Proof.
  unfold git_part. intros Hrc Hgit [Hc Hw]. injection Hgit as Hlb Hsubs.
  split; [by rewrite Hrc|].
  intros repo wf uri head Hin. rewrite Hsubs in Hin. rewrite Hlb.
  exact (Hw repo wf uri head Hin).
Qed.

Lemma steady_set_microtasks (q : list Job) (s : State) :
  steady s → steady (set_microtasks q s).
Proof. by apply steady_same. Qed.

Lemma steady_set_lastBranch (k v : string) (s : State) :
  v ≠ "" → steady s → steady (set_lastBranch k v s).
Proof.
  intros Hv [Hc Hw]. split; [exact Hc|].
  intros repo wf uri head Hin. cbn in Hin.
  destruct (Hw repo wf uri head Hin) as [Huri (last & Hlast & Hne)].
  split; [exact Huri|]. cbn [set_lastBranch lastBranch].
  destruct (decide (k = uri)) as [->|Hk].
  - exists v. by rewrite lookup_insert_eq.
  - exists last. by rewrite lookup_insert_ne.
Qed.

Lemma steady_install (workspaceFolder : WorkspaceFolder) (repo : RepositoryRef)
    (head : BranchRef) (name : string) (s : State) :
  name ≠ "" → steady s → steady (install workspaceFolder repo head name s).
Proof.
  intros Hname Hs.
  destruct (steady_set_lastBranch (uri_toString (wf_uri workspaceFolder))
              name s Hname Hs) as [Hc Hw].
  split; [exact Hc|].
  intros repo' wf' uri' head' Hin. unfold install in Hin. cbn in Hin.
  apply elem_of_app in Hin as [Hin | Hin].
  - exact (Hw repo' wf' uri' head' Hin).
  - apply list_elem_of_singleton in Hin. injection Hin as -> -> -> ->.
    split; [reflexivity|]. exists name. cbn. by rewrite lookup_insert_eq.
Qed.

Lemma setupGitEventHandler_steady (h : Host) (folders : list WorkspaceFolder)
    (s : State) :
  steady s → steady (final (Extension.setupGitEventHandler h folders s)).
Proof.
  unfold Extension.setupGitEventHandler.
  destruct (getGitAPI h) as [gitApi|] eqn:Hapi; [|done].
  revert s.
  apply (for_of_final_rel (λ s1 s2, steady s1 → steady s2)); [auto | auto |].
  intros wf s _ Hs.
  destruct (setupFolder_cases h gitApi wf s Hapi)
    as [_ [[_ ->] | (repo & head & name & (_ & _ & _ & Hname) & ->)]];
    [done | by apply steady_install].
Qed.

Lemma then_final_queue {A} (p : Promise A) (k : A → Job) (s : State) :
  ∃ q, final (then_ p k s) = set_microtasks q s.
Proof.
  destruct p as [a| |].
  - by exists (microtasks s ++ [k a]).
  - exists (microtasks s). by destruct s.
  - exists (microtasks s). by destruct s.
Qed.

Lemma onRepositoryState_final (h : Host) (workspaceFolder : WorkspaceFolder)
    (workspaceUri : string) (head : BranchRef) (s : State) :
  let s' := final (Extension.onRepositoryState h workspaceFolder
                     workspaceUri head s) in
  s' = s ∨
  ∃ currentBranch q,
    Branch_name (heap h) head = Some currentBranch ∧ currentBranch ≠ "" ∧
    s' = set_lastBranch workspaceUri currentBranch (set_microtasks q s).
Proof.
  cbn zeta.
  destruct (truthy (Branch_name (heap h) head)) eqn:Hname;
    [|left; by rewrite onRepositoryState_unnamed].
  right. apply truthy_is_Some in Hname as (cb & Hcb & Hne). exists cb.
  destruct (then_final_queue (getDeployGitFiles h workspaceFolder)
              (ThenShowImpactFor gitImpactView) s) as [q Hq].
  assert (Hunchanged :
            truthy (lastBranch s !! workspaceUri) = false ∨
            lastBranch s !! workspaceUri = Some cb →
            ∃ q, final (Extension.onRepositoryState h workspaceFolder
                          workspaceUri head s)
                 = set_lastBranch workspaceUri cb (set_microtasks q s)).
  { intros Hlast. exists q.
    rewrite (onRepositoryState_unchanged h _ _ _ s cb Hcb Hne Hlast).
    cbn [final fst snd]. by rewrite Hq. }
  destruct (lastBranch s !! workspaceUri) as [last|] eqn:Hlast.
  - destruct (decide (last = "")) as [->|Hl];
      [|destruct (decide (cb = last)) as [->|Hd]].
    + destruct Hunchanged as [q' Hq']; [by left|]. by exists q'.
    + destruct Hunchanged as [q' Hq']; [by right|]. by exists q'.
    + exists (microtasks s). split; [done|]. split; [done|].
      rewrite (onRepositoryState_switched h _ _ _ s cb last) by done.
      by destruct s.
  - destruct Hunchanged as [q' Hq']; [by left|]. by exists q'.
Qed.

Lemma listener_steady (h : Host) (ev : Event) (sub : Subscription) (s : State) :
  steady s → steady (final (Extension.listener h ev sub s)).
Proof.
  intros Hs.
  assert (Hother : (∀ added, ev ≠ DidChangeWorkspaceFolders added) →
                   (∀ repo, ev ≠ RepositoryStateChanged repo) →
                   steady (final (Extension.listener h ev sub s))).
  { intros Hwf Hrepo. apply (steady_same s); [| by apply listener_git | done].
    pose proof (listener_fixed h ev sub s) as Hfix. unfold fixed_part in Hfix.
    by injection Hfix. }
  destruct ev; try (by apply Hother).
  - destruct sub; cbn [Extension.listener]; try done.
    by apply setupGitEventHandler_steady.
  - destruct sub; cbn [Extension.listener]; try done.
    case_bool_decide; [|done].
    destruct (onRepositoryState_final h workspaceFolder workspaceUri head s)
      as [-> | (cb & q & _ & Hne & ->)]; [done|].
    apply steady_set_lastBranch; [done|]. by apply steady_set_microtasks.
Qed.

Lemma dispatch_steady (h : Host) (ev : Event) (s : State) :
  steady s → steady (final (Extension.dispatch h ev s)).
Proof.
  intros Hs. rewrite dispatch_final. apply steady_set_microtasks.
  set (s1 := final (for_of (subscriptions s) (Extension.listener h ev) s)).
  assert (H1 : steady s1).
  { subst s1. generalize (subscriptions s) as subs. intros subs. revert s Hs.
    apply (for_of_final_rel (λ s1 s2, steady s1 → steady s2)); [auto | auto |].
    intros sub s _. apply listener_steady. }
  destruct (provide_parts ev s1) as (Prc & _ & _ & Pgit & _).
  by apply (steady_same s1).
Qed.

Lemma activate_steady (h : Host) (branches : gmap string string) :
  steady (final (Extension.activate h (initial branches))).
Proof.
  rewrite activate_final.
  assert (Hst : steady (started h (initial branches))).
  { split; [cbn; eauto|].
    intros repo wf uri head Hin. cbn in Hin.
    apply list_elem_of_In in Hin. cbn in Hin.
    repeat (destruct Hin as [Hin | Hin]; [discriminate Hin|]). done. }
  destruct (workspaceFolders h); [by apply setupGitEventHandler_steady | done].
Qed.

Lemma reachable_steady (s : State) :
  reachable s → steady s ∧ microtasks s = [].
Proof.
  induction 1 as [h branches | h ev s _ [IH _]].
  - split; [apply activate_steady|]. rewrite activate_final.
    destruct (workspaceFolders h) as [folders|]; [|done].
    by rewrite setupGitEventHandler_queue.
  - split; [by apply dispatch_steady|]. by rewrite dispatch_final.
Qed.

(** ** One repository listener run alone *)

Lemma handle_repository (h : Host) (repo : RepositoryRef)
    (workspaceFolder : WorkspaceFolder) (workspaceUri : string)
    (head : BranchRef) (s : State) :
  Extension.handle h (RepositoryStateChanged repo)
    (OnRepositoryState repo workspaceFolder workspaceUri head) s
  = (Extension.onRepositoryState h workspaceFolder workspaceUri head;;
     Extension.drain h) s.
Proof.
  unfold Extension.handle, Extension.listener.
  by rewrite bool_decide_eq_true_2.
Qed.

Lemma activated_reachable : reachable activated.
Proof. exact (reachable_activate hostMain ∅). Qed.

Lemma activated_watches_folderA :
  OnRepositoryState 1 folderA "file:///proj/a" 11 ∈ subscriptions activated.
Proof. apply list_elem_of_In. vm_compute. do 8 right. by left. Qed.

(** One listener, run alone from a state between events: when the name it
    reads through the HEAD object it holds is usable and differs from the
    name stored for the workspace, it shows the git-impact view an empty file
    list and then sends [reloadProject] for the workspace; these are its only
    two calls. The stored name becomes the name read. *)
Lemma branch_switch_reloads (h : Host) (s : State) (repo : RepositoryRef)
    (workspaceFolder : WorkspaceFolder) (workspaceUri : string)
    (head : BranchRef) (currentBranch last : string) :
  reachable s →
  OnRepositoryState repo workspaceFolder workspaceUri head ∈ subscriptions s →
  Branch_name (heap h) head = Some currentBranch →
  currentBranch ≠ "" →
  lastBranch s !! workspaceUri = Some last →
  currentBranch ≠ last →
  let r := Extension.handle h (RepositoryStateChanged repo)
             (OnRepositoryState repo workspaceFolder workspaceUri head) s in
  ∃ lc,
    requests_client s = Some lc ∧
    trace r = [ShowImpactFor gitImpactView [];
               SendRequest lc "reloadProject"
                 [VStr (uri_toString (wf_uri workspaceFolder))]] ∧
    lastBranch (final r) = <[workspaceUri := currentBranch]> (lastBranch s).
Proof.
  intros Hreach Hin Hname Hcb Hlast Hne r.
  destruct (reachable_steady s Hreach) as [[[lc Hlc] Hw] Hq].
  destruct (Hw repo workspaceFolder workspaceUri head Hin)
    as [Huri (last' & Hlast' & Hl)].
  assert (last' = last) as -> by congruence.
  exists lc. split; [exact Hlc|].
  subst r. rewrite handle_repository.
  rewrite bind_trace, bind_final.
  rewrite (onRepositoryState_switched h _ _ _ s currentBranch last) by done.
  cbn [trace final result fst snd].
  rewrite drain_nil by exact Hq.
  unfold Requests.reloadProject. run. rewrite Hlc. cbn. done.
Qed.

Lemma branch_switch_reloads_witness :
  trace (Extension.handle hostDev (RepositoryStateChanged 1)
           (OnRepositoryState 1 folderA "file:///proj/a" 11) activated)
  = [ShowImpactFor gitImpactView [];
     SendRequest sampleClient "reloadProject" [VStr "file:///proj/a"]].
Proof.
  destruct (branch_switch_reloads hostDev activated 1 folderA "file:///proj/a"
              11 "dev" "main" activated_reachable activated_watches_folderA
              eq_refl ltac:(discriminate) eq_refl ltac:(discriminate))
    as (lc & Hlc & Htrace & _).
  injection Hlc as <-. exact Htrace.
Defined.

(** One listener, run alone from a state between events: when the name it
    reads through the HEAD object it holds is usable and equals the stored
    name, it asks for the changed files of its workspace folder and, once
    they are known, shows them to the git-impact view. Whatever becomes of
    the changed-files promise, no request is sent; the stored name stays. *)
Lemma same_branch_shows_changed_files (h : Host) (s : State)
    (repo : RepositoryRef) (workspaceFolder : WorkspaceFolder)
    (workspaceUri : string) (head : BranchRef) (currentBranch : string) :
  reachable s →
  OnRepositoryState repo workspaceFolder workspaceUri head ∈ subscriptions s →
  Branch_name (heap h) head = Some currentBranch →
  currentBranch ≠ "" →
  lastBranch s !! workspaceUri = Some currentBranch →
  let r := Extension.handle h (RepositoryStateChanged repo)
             (OnRepositoryState repo workspaceFolder workspaceUri head) s in
  (∀ files, getDeployGitFiles h workspaceFolder = Fulfilled files →
     trace r = [GetChangedFiles workspaceFolder;
                ShowImpactFor gitImpactView files]) ∧
  filter is_request (trace r) = [] ∧
  lastBranch (final r) = lastBranch s.
Proof.
  intros Hreach Hin Hname Hcb Hlast r.
  destruct (reachable_steady s Hreach) as [_ Hq].
  subst r. rewrite handle_repository.
  rewrite bind_trace, bind_final.
  rewrite (onRepositoryState_unchanged h _ _ _ s currentBranch) by auto.
  cbn [trace final result fst snd].
  destruct s as [rc ec lb ov subs ch q]. cbn in Hq, Hlast. subst q.
  split; [|split].
  - intros files ->. reflexivity.
  - destruct (getDeployGitFiles h workspaceFolder); reflexivity.
  - rewrite drain_final.
    destruct (getDeployGitFiles h workspaceFolder); cbn; by apply insert_id.
Qed.

Lemma same_branch_shows_changed_files_witness :
  trace (Extension.handle hostMain (RepositoryStateChanged 1)
           (OnRepositoryState 1 folderA "file:///proj/a" 11) activated)
  = [GetChangedFiles folderA; ShowImpactFor gitImpactView [fileX; fileY]].
Proof.
  exact (proj1 (same_branch_shows_changed_files hostMain activated 1 folderA
                  "file:///proj/a" 11 "main" activated_reachable
                  activated_watches_folderA eq_refl ltac:(discriminate) eq_refl)
           [fileX; fileY] eq_refl).
Defined.

(** ** C10 *)

Lemma setup_loop_subscriptions (h : Host) (gitApi : GitAPI)
    (folders : list WorkspaceFolder) (sub : Subscription) :
  getGitAPI h = Some gitApi →
  ∀ s,
    sub ∈ subscriptions (final (for_of folders (Extension.setupFolder h gitApi) s)) →
    sub ∈ subscriptions s ∨
    ∃ workspaceFolder repo head name,
      workspaceFolder ∈ folders ∧
      eligible h workspaceFolder repo head name ∧
      sub = OnRepositoryState repo workspaceFolder (key_of workspaceFolder) head.
Proof.
  intros Hapi. induction folders as [|wf folders IH]; intros s Hin; [by left|].
  rewrite for_of_final_cons in Hin.
  destruct (IH _ Hin) as [Hold | (wf' & repo & head & name & Hwf & He & ->)].
  - destruct (setupFolder_cases h gitApi wf s Hapi)
      as [_ [[_ Hs] | (repo & head & name & He & Hs)]]; rewrite Hs in Hold.
    + by left.
    + unfold install in Hold. cbn in Hold.
      apply elem_of_app in Hold as [Hold | Hold]; [by left|].
      apply list_elem_of_singleton in Hold. right.
      exists wf, repo, head, name. split; [left | done].
  - right. exists wf', repo, head, name. split; [by right | done].
Qed.

Lemma setup_loop_lastBranch (h : Host) (gitApi : GitAPI)
    (folders : list WorkspaceFolder) (k : string) :
  getGitAPI h = Some gitApi →
  (∀ workspaceFolder, workspaceFolder ∈ folders →
     key_of workspaceFolder = k → ¬ installed h workspaceFolder) →
  ∀ s,
    lastBranch (final (for_of folders (Extension.setupFolder h gitApi) s)) !! k
    = lastBranch s !! k.
Proof.
  intros Hapi. induction folders as [|wf folders IH]; intros Hno s; [done|].
  rewrite for_of_final_cons.
  rewrite IH by (intros wf' Hwf'; apply Hno; by right).
  destruct (setupFolder_cases h gitApi wf s Hapi)
    as [_ [[_ ->] | (repo & head & name & He & ->)]]; [done|].
  unfold install. cbn.
  destruct (decide (key_of wf = k)) as [Hk|Hk].
  - destruct (Hno wf) ; [left | done | by exists repo, head, name].
  - by rewrite lookup_insert_ne.
Qed.

(** The calls of the repository listener are made on behalf of its own
    folder. *)
Lemma onRepositoryState_addressed (h : Host) (workspaceFolder : WorkspaceFolder)
    (workspaceUri u : string) (head : BranchRef) (s : State) :
  key_of workspaceFolder ≠ u →
  Forall (λ e, ¬ addressed u e)
    (trace (Extension.onRepositoryState h workspaceFolder workspaceUri head s)).
Proof.
  intros Hkey. unfold Extension.onRepositoryState.
  destruct (Branch_name (heap h) head) as [cb|]; [|constructor].
  destruct (truthy (Some cb)); [|constructor].
  unfold Extension.showImpactFor, Extension.getChangedFiles. unfold_requests.
  run.
  destruct (truthy (lastBranch s !! workspaceUri)
            && negb (bool_decide (Some cb = lastBranch s !! workspaceUri))).
  - cbn. destruct (requests_client s); cbn; repeat constructor; cbn; auto.
  - cbn. destruct (getDeployGitFiles h workspaceFolder); cbn;
      repeat constructor; cbn; auto.
Qed.

(** The repository listener queues nothing but a showing of impact. *)
Lemma listener_repository_queue (h : Host) (repo : RepositoryRef)
    (sub : Subscription) (s : State) :
  Forall shows_impact (microtasks s) →
  Forall shows_impact
    (microtasks (final (Extension.listener h (RepositoryStateChanged repo) sub s))).
Proof.
  intros Hq. destruct sub; cbn [Extension.listener]; try done.
  case_bool_decide; [|done].
  unfold Extension.onRepositoryState.
  destruct (Branch_name (heap h) head) as [cb|]; [|done].
  destruct (truthy (Some cb)); [|done].
  unfold Extension.showImpactFor, Extension.getChangedFiles. unfold_requests.
  run.
  destruct (truthy (lastBranch s !! workspaceUri)
            && negb (bool_decide (Some cb = lastBranch s !! workspaceUri))).
  - cbn. destruct (requests_client s); done.
  - cbn. destruct (getDeployGitFiles h workspaceFolder); cbn; try done.
    apply Forall_app. split; [done|]. by repeat constructor.
Qed.

Lemma listeners_repository_queue (h : Host) (repo : RepositoryRef)
    (subs : list Subscription) (s : State) :
  Forall shows_impact (microtasks s) →
  Forall shows_impact
    (microtasks (final (for_of subs
                          (Extension.listener h (RepositoryStateChanged repo)) s))).
Proof.
  revert s.
  apply (for_of_final_rel
           (λ s1 s2, Forall shows_impact (microtasks s1) →
                     Forall shows_impact (microtasks s2))); [auto | auto |].
  intros sub s _. apply listener_repository_queue.
Qed.

(** In a state between events without a listener under key [u], a
    repository state change makes no call on behalf of [u] and installs
    nothing. *)
Lemma unwatched_repository_event (h : Host) (repo : RepositoryRef)
    (u : string) (s : State) :
  reachable s →
  unwatched u s →
  Forall (λ e, ¬ addressed u e)
    (trace (Extension.dispatch h (RepositoryStateChanged repo) s)) ∧
  unwatched u (final (Extension.dispatch h (RepositoryStateChanged repo) s)).
Proof.
  intros Hreach Hun.
  destruct (reachable_steady s Hreach) as [[_ Hw] Hq].
  split.
  - unfold Extension.dispatch.
    rewrite bind_trace. change (trace (gets subscriptions s)) with (@nil Effect).
    change (final (gets subscriptions s)) with s.
    change (result (gets subscriptions s)) with (subscriptions s).
    rewrite app_nil_l, bind_trace. apply Forall_app. split.
    + apply for_of_trace_Forall. intros sub s' Hin.
      destruct sub; cbn [Extension.listener]; try constructor.
      case_bool_decide; [|constructor].
      destruct (Hw _ _ _ _ Hin) as [Hkey _].
      apply onRepositoryState_addressed. fold (key_of workspaceFolder) in Hkey.
      intros Hu. apply (Hun repo0 workspaceFolder head). congruence.
    + set (s1 := final (for_of (subscriptions s)
                          (Extension.listener h (RepositoryStateChanged repo)) s)).
      rewrite bind_trace. cbn [Extension.provide].
      change (trace ((mret () : M unit) s1)) with (@nil Effect).
      change (final ((mret () : M unit) s1)) with s1.
      rewrite app_nil_l, drain_trace.
      assert (Hq1 : Forall shows_impact (microtasks s1)).
      { apply listeners_repository_queue. rewrite Hq. constructor. }
      apply for_of_trace_Forall. intros j s' Hj.
      rewrite Forall_forall in Hq1. specialize (Hq1 j Hj).
      destruct j; try done. cbn. repeat constructor. cbn. auto.
  - intros r wf hd Hin. rewrite dispatch_final in Hin.
    change (OnRepositoryState r wf u hd
            ∈ subscriptions
                (final (for_of (subscriptions s)
                          (Extension.listener h (RepositoryStateChanged repo)) s)))
      in Hin.
    rewrite listeners_repository_subscriptions in Hin. by apply (Hun r wf hd).
Qed.

Lemma setup_subscriptions (h : Host) (folders : list WorkspaceFolder)
    (s : State) (sub : Subscription) :
  sub ∈ subscriptions (final (Extension.setupGitEventHandler h folders s)) →
  sub ∈ subscriptions s ∨
  ∃ workspaceFolder repo head name,
    workspaceFolder ∈ folders ∧
    eligible h workspaceFolder repo head name ∧
    sub = OnRepositoryState repo workspaceFolder (key_of workspaceFolder) head.
Proof.
  unfold Extension.setupGitEventHandler.
  destruct (getGitAPI h) as [gitApi|] eqn:Hapi; [|by left].
  by apply setup_loop_subscriptions.
Qed.

Lemma setup_unwatched (h : Host) (folders : list WorkspaceFolder) (s : State)
    (u : string) :
  (∀ workspaceFolder, workspaceFolder ∈ folders →
     key_of workspaceFolder = u → ¬ installed h workspaceFolder) →
  lastBranch (final (Extension.setupGitEventHandler h folders s)) !! u
  = lastBranch s !! u ∧
  (unwatched u s →
   unwatched u (final (Extension.setupGitEventHandler h folders s))).
Proof.
  intros Hno. split.
  - unfold Extension.setupGitEventHandler.
    destruct (getGitAPI h) as [gitApi|] eqn:Hapi; [|done].
    by apply setup_loop_lastBranch.
  - intros Hun repo wf head Hin.
    apply setup_subscriptions in Hin
      as [Hin | (wf' & repo' & head' & name & Hwf & He & Heq)].
    + by apply (Hun repo wf head).
    + injection Heq as -> -> Hu ->.
      apply (Hno wf' Hwf); [done | by exists repo', head', name].
Qed.

(** C10. [setupGitEventHandler] installs a repository listener for a folder
    only if, at that moment, the git API is there, the folder has a
    repository and the HEAD of that repository has a usable branch name;
    the call itself sends nothing. Where every folder with URI string [u]
    fails these conditions, nothing is installed and nothing is stored
    under [u], at a later setup as well as at activation. In a state
    between events without a listener under [u], a repository state change
    makes no call on behalf of [u] (no request addressed to it, no query for
    its changed files) and installs nothing, so this goes on for every
    later repository state change. *)
Theorem git_handling_only_when_eligible (h : Host)
    (folders : list WorkspaceFolder) (s : State) :
  let r := Extension.setupGitEventHandler h folders s in
  trace r = [] ∧
  (∀ sub, sub ∈ subscriptions (final r) →
     sub ∈ subscriptions s ∨
     ∃ workspaceFolder repo head name,
       workspaceFolder ∈ folders ∧
       eligible h workspaceFolder repo head name ∧
       sub = OnRepositoryState repo workspaceFolder (key_of workspaceFolder) head) ∧
  (∀ u, (∀ workspaceFolder, workspaceFolder ∈ folders →
           key_of workspaceFolder = u → ¬ installed h workspaceFolder) →
     lastBranch (final r) !! u = lastBranch s !! u ∧
     (unwatched u s → unwatched u (final r))) ∧
  (∀ u branches,
     (∀ present workspaceFolder,
        workspaceFolders h = Some present → workspaceFolder ∈ present →
        key_of workspaceFolder = u → ¬ installed h workspaceFolder) →
     let a := final (Extension.activate h (initial branches)) in
     lastBranch a !! u = branches !! u ∧ unwatched u a) ∧
  (∀ u s' h' repo,
     reachable s' → unwatched u s' →
     let r' := Extension.dispatch h' (RepositoryStateChanged repo) s' in
     Forall (λ e, ¬ addressed u e) (trace r') ∧ unwatched u (final r')).
Proof.
  cbn zeta. split; [apply setupGitEventHandler_trace|].
  split; [intros sub; apply setup_subscriptions|].
  split; [intros u; apply setup_unwatched|].
  split; [|intros u s' h' repo; apply unwatched_repository_event].
  intros u branches Hno. rewrite activate_final.
  assert (Hst : unwatched u (started h (initial branches))).
  { intros repo wf head Hin. cbn in Hin.
    apply list_elem_of_In in Hin. cbn in Hin.
    repeat (destruct Hin as [Hin | Hin]; [discriminate Hin|]). done. }
  destruct (workspaceFolders h) as [present|] eqn:Hpresent; [|done].
  destruct (setup_unwatched h present (started h (initial branches)) u)
    as [Hlb Hun]; [by eauto|].
  split; [exact Hlb | by apply Hun].
Qed.

Lemma git_handling_only_when_eligible_witness :
  Forall (λ e, ¬ addressed "file:///proj/a" e)
    (trace (Extension.dispatch hostDev (RepositoryStateChanged 1)
              (final (Extension.activate hostDetached (initial ∅))))).
Proof.
  pose proof (git_handling_only_when_eligible hostDetached [folderA] (initial ∅))
    as (_ & _ & _ & Hact & Hlater).
  destruct (Hact "file:///proj/a" ∅) as [_ Hun].
  { intros present wf _ _ _ (repo & head & name & _ & _ & Hname & _).
    vm_compute in Hname. discriminate Hname. }
  exact (proj1 (Hlater _ _ hostDev 1 (reachable_activate hostDetached ∅) Hun)).
Defined.

(** ** One listener run alone: requests *)

Lemma count_app (p : Effect → bool) (t1 t2 : list Effect) :
  count p (t1 ++ t2) = count p t1 + count p t2.
Proof. induction t1 as [|e t1 IH]; cbn; [done | rewrite IH; lia]. Qed.

Lemma handle_trace (h : Host) (ev : Event) (sub : Subscription) (s : State) :
  trace (Extension.handle h ev sub s)
  = trace (Extension.listener h ev sub s)
    ++ trace (Extension.drain h (final (Extension.listener h ev sub s))).
Proof. reflexivity. Qed.

(** The continuation of the picker sends at most one request and shows
    nothing to a view. *)
Lemma autoFixChosen_count (h : Host) (node : ObjectsView)
    (chosen : option string) (s : State) (p : Effect → bool) :
  count p (trace (Extension.autoFixChosen h node chosen s)) ≤ 1.
Proof.
  unfold Extension.autoFixChosen.
  destruct chosen as [item|]; [|cbn; lia].
  destruct (truthy (Some item)); [|cbn; lia].
  destruct (Extension.autoFixType item) as [type|]; [|cbn; lia].
  destruct (truthy (Some type)); [|cbn; lia].
  unfold_requests. run.
  destruct (requests_client s); cbn; [|lia].
  match goal with |- context [p ?e] => destruct (p e) end; lia.
Qed.

(** One listener run to completion (its synchronous part and the
    continuations it queued), started with no continuation pending, sends at
    most one request to the analysis service, whatever the event. The bound
    still holds when every showing of a non-empty file list to an impact
    view is counted with the requests. *)
Lemma listener_sends_at_most_one (h : Host) (ev : Event)
    (sub : Subscription) (s : State) :
  microtasks s = [] →
  let r := Extension.handle h ev sub s in
  count is_request (trace r) ≤ 1 ∧ count outgoing (trace r) ≤ 1.
Proof.
  intros Hq r. subst r. rewrite handle_trace.
  destruct sub, ev; cbn [Extension.listener];
    try (rewrite drain_nil by exact Hq; vm_compute; lia).
  - destruct s as [rc ec lb ov subs ch q]. cbn in Hq. subst q.
    destruct node as [node|]; [|vm_compute; lia].
    unfold Extension.loadProject, Extension.await. unfold_requests. run.
    destruct rc as [lc|]; cbn.
    + destruct (server h "reloadProject" _); vm_compute; lia.
    + vm_compute; lia.
  - destruct s as [rc ec lb ov subs ch q]. cbn in Hq. subst q.
    destruct node as [[[uri|]]|]; try (vm_compute; lia).
    unfold Extension.goToFile. run. cbn.
    destruct (openTextDocument h uri); vm_compute; lia.
  - destruct s as [rc ec lb ov subs ch q]. cbn in Hq. subst q.
    destruct node as [node|]; [|vm_compute; lia].
    unfold Extension.autoFixPick.
    rewrite bind_trace, bind_final.
    destruct (showInformationMessage h _ _) as [chosen| |]; try (vm_compute; lia).
    cbn [then_]. rewrite drain_trace.
    cbn [emit modify final trace fst snd microtasks set_microtasks app].
    rewrite for_of_trace_cons. cbn [Extension.run_job for_of].
    cbn [count is_request outgoing]. rewrite !count_app.
    match goal with
    | |- context [Extension.autoFixChosen h node chosen ?st] =>
        pose proof (autoFixChosen_count h node chosen st is_request);
        pose proof (autoFixChosen_count h node chosen st outgoing)
    end.
    cbn [count trace snd mret M_ret] in *. lia.
  - destruct s as [rc ec lb ov subs ch q]. cbn in Hq. subst q.
    unfold Extension.autoFix. unfold_requests. run.
    destruct rc; vm_compute; lia.
  - destruct s as [rc ec lb ov subs ch q]. cbn in Hq. subst q.
    destruct e as [[[doc|]]|]; vm_compute; lia.
  - unfold Extension.onDidChangeWorkspaceFolders.
    rewrite setupGitEventHandler_trace.
    rewrite drain_nil by (by rewrite setupGitEventHandler_queue).
    cbn. lia.
  - case_bool_decide; [|rewrite drain_nil by exact Hq; vm_compute; lia].
    destruct (truthy (Branch_name (heap h) head)) eqn:Hname;
      [|rewrite onRepositoryState_unnamed by exact Hname;
        rewrite drain_nil by exact Hq; vm_compute; lia].
    apply truthy_is_Some in Hname as (cb & Hcb & Hne).
    destruct (decide (truthy (lastBranch s !! workspaceUri) = false ∨
                      lastBranch s !! workspaceUri = Some cb)) as [Hsame|Hdiff].
    + rewrite (onRepositoryState_unchanged h _ _ _ s cb Hcb Hne Hsame).
      cbn [trace final fst snd].
      destruct s as [rc ec lb ov subs ch q]. cbn in Hq. subst q.
      destruct (getDeployGitFiles h workspaceFolder) as [[|file files]| |];
        vm_compute; lia.
    + destruct (lastBranch s !! workspaceUri) as [last|] eqn:Hlast;
        [|destruct Hdiff; by left].
      assert (Hl : last ≠ "").
      { intros ->. apply Hdiff. by left. }
      assert (Hd : cb ≠ last).
      { intros ->. apply Hdiff. by right. }
      rewrite (onRepositoryState_switched h _ _ _ s cb last Hcb Hne Hlast Hl Hd).
      cbn [trace final fst snd].
      rewrite drain_nil by exact Hq.
      unfold_requests. run. destruct (requests_client s); vm_compute; lia.
Qed.

Lemma listener_sends_at_most_one_witness :
  count is_request
    (trace (Extension.handle hostDev (RepositoryStateChanged 1)
              (OnRepositoryState 1 folderA "file:///proj/a" 11) activated)) ≤ 1.
Proof.
  exact (proj1 (listener_sends_at_most_one hostDev (RepositoryStateChanged 1)
                  (OnRepositoryState 1 folderA "file:///proj/a" 11) activated
                  eq_refl)).
Defined.

(** * Further properties of the two modules *)

(** ** requests.ts: [setClient] *)

(** X1. Whatever connection was set before, after [setClient(lc)] every
    request function sends its request on [lc]; [setClient] assigns only the
    variable of the request module, not the one of the extension module. *)
Theorem setClient_then_perform (h : Host) (lc : LanguageClient) (c : Call)
    (s : State) :
  let r := (Requests.setClient lc;; perform h c) s in
  trace r = [SendRequest lc (documented_request c).1 (documented_request c).2] ∧
  requests_client (final r) = Some lc ∧
  extension_client (final r) = extension_client s ∧
  lastBranch (final r) = lastBranch s.
Proof.
  assert (Hmap : ∀ l : list Uri,
             VStr <$> (uri_toString <$> l) = (λ uri, VStr (uri_toString uri)) <$> l).
  { intros l. by rewrite <- list_fmap_compose. }
  destruct c; cbn [perform documented_request folder_of fst snd];
    unfold_requests; run; cbn; rewrite ?Hmap; repeat split.
Qed.

(** ** extension.ts: the commands *)

(** X2. [loadProject] on a node sends [reloadProject] for the node's
    workspace; only when that request is answered are the views enabled and
    the node refreshed, in this order. When the request fails or is never
    answered, and when no connection is set, neither happens; without a node
    the command does nothing. The command changes no variable. *)
Theorem loadProject_command (h : Host) (node : ObjectsView) (s : State) :
  microtasks s = [] →
  let workspaceUri := VStr (key_of (ov_workspaceFolder node)) in
  let r := Extension.handle h (RunLoadProject (Some node)) CmdLoadProject s in
  trace r
  = match requests_client s with
    | Some lc =>
        SendRequest lc "reloadProject" [workspaceUri]
          :: match server h "reloadProject" [workspaceUri] with
             | Fulfilled _ =>
                 [ExecuteCommand "setContext" "vscode-sourceorbit:projectsLoaded" true;
                  RefreshObjectsView node]
             | _ => []
             end
    | None => []
    end ∧
  final r = s ∧
  Extension.handle h (RunLoadProject None) CmdLoadProject s = ((), s, []).
Proof.
  intros Hq workspaceUri r. subst r workspaceUri.
  destruct s as [rc ec lb ov subs ch q]. cbn in Hq. subst q.
  unfold Extension.handle, Extension.listener, Extension.loadProject,
    Extension.await, key_of.
  unfold_requests. run. cbn [requests_client].
  destruct rc as [lc|]; [|repeat split].
  cbn. destruct (server h "reloadProject" _); repeat split.
Qed.

Lemma loadProject_command_witness :
  trace (Extension.handle hostMain (RunLoadProject (Some (mkObjectsView folderA)))
           CmdLoadProject activated)
  = [SendRequest sampleClient "reloadProject" [VStr "file:///proj/a"];
     ExecuteCommand "setContext" "vscode-sourceorbit:projectsLoaded" true;
     RefreshObjectsView (mkObjectsView folderA)].
Proof.
  exact (proj1 (loadProject_command hostMain (mkObjectsView folderA) activated
                  eq_refl)).
Defined.

(** X3. [goToFile] on a tree item with a resource opens that resource and,
    once it is open, shows the document that was opened; when opening fails
    nothing is shown. Without a node, or for an item without a resource, it
    does nothing. It never sends a request and changes no variable. *)
Theorem goToFile_command (h : Host) (node : option ILEObjectTreeItem)
    (s : State) :
  microtasks s = [] →
  let r := Extension.handle h (RunGoToFile node) CmdGoToFile s in
  trace r
  = match node ≫= resourceUri with
    | Some uri =>
        OpenTextDocument uri
          :: match openTextDocument h uri with
             | Fulfilled doc => [ShowTextDocument doc]
             | _ => []
             end
    | None => []
    end ∧
  count is_request (trace r) = 0 ∧
  final r = s.
Proof.
  intros Hq r. subst r.
  destruct s as [rc ec lb ov subs ch q]. cbn in Hq. subst q.
  unfold Extension.handle, Extension.listener, Extension.goToFile.
  destruct node as [[[uri|]]|]; try (repeat split; reflexivity).
  run. cbn. destruct (openTextDocument h uri); repeat split.
Qed.

Lemma goToFile_command_witness :
  trace (Extension.handle hostMain
           (RunGoToFile (Some (mkILEObjectTreeItem (Some fileX))))
           CmdGoToFile activated)
  = [OpenTextDocument fileX; ShowTextDocument (mkTextDocument fileX)].
Proof.
  exact (proj1 (goToFile_command hostMain
                  (Some (mkILEObjectTreeItem (Some fileX))) activated eq_refl)).
Defined.

Lemma autoFixType_kind (chosen kind : string) :
  Extension.autoFixType chosen = Some kind → picker_kind kind.
Proof.
  unfold Extension.autoFixType, picker_kind.
  destruct (String.eqb chosen "File names");
    [|destruct (String.eqb chosen "RPG includes")]; intros H;
    [left | right | discriminate H]; congruence.
Qed.

Lemma autoFixChosen_trace (h : Host) (view : ObjectsView)
    (chosen : option string) (s : State) :
  trace (Extension.autoFixChosen h view chosen s) = [] ∨
  ∃ lc kind,
    picker_kind kind ∧
    trace (Extension.autoFixChosen h view chosen s)
    = [SendRequest lc "fixProject"
         [VStr (key_of (ov_workspaceFolder view)); VStr kind]].
Proof.
  unfold Extension.autoFixChosen.
  destruct chosen as [item|]; [|by left].
  destruct (truthy (Some item)); [|by left].
  destruct (Extension.autoFixType item) as [kind|] eqn:Hkind; [|by left].
  apply autoFixType_kind in Hkind.
  destruct (truthy (Some kind)); [|by left].
  unfold_requests. run.
  destruct (requests_client s) as [lc|]; [|by left].
  right. by exists lc, kind.
Qed.

Lemma autoFixPick_trace (h : Host) (view : ObjectsView) (s : State) :
  microtasks s = [] →
  let message :=
    "Select auto fix method for " +:+ wf_name (ov_workspaceFolder view) in
  let r := Extension.handle h (RunAutoFixPick (Some view)) CmdAutoFixPick s in
  trace r
  = ShowInformationMessage message Extension.autoFixItems
      :: match showInformationMessage h message Extension.autoFixItems with
         | Fulfilled chosen => trace (Extension.autoFixChosen h view chosen s)
         | _ => []
         end ∧
  final r = s.
Proof.
  intros Hq message r. subst r.
  destruct s as [rc ec lb ov subs ch q]. cbn in Hq. subst q.
  unfold Extension.handle, Extension.listener, Extension.autoFixPick.
  fold message. rewrite !bind_trace, !bind_final.
  destruct (showInformationMessage h message Extension.autoFixItems)
    as [chosen| |]; try (split; reflexivity).
  cbn [then_]. rewrite drain_trace, drain_final.
  cbn [emit modify final trace result fst snd microtasks set_microtasks app].
  rewrite for_of_trace_cons. cbn [Extension.run_job for_of].
  split; [|reflexivity].
  change (trace ((mret () : M unit) _)) with (@nil Effect).
  by rewrite app_nil_r.
Qed.

(** X4. Whatever the picker gives back, the auto-fix picker command sends
    at most one request, and that request is [fixProject] for the node's
    workspace with the kind [renames] or [includes]: no other string can
    reach the service through the picker. Without a node no picker is shown.
    The command changes no variable. *)
Theorem autoFix_picker_kinds (h : Host) (node : option ObjectsView)
    (s : State) :
  microtasks s = [] →
  let r := Extension.handle h (RunAutoFixPick node) CmdAutoFixPick s in
  (node = None → trace r = []) ∧
  count is_request (trace r) ≤ 1 ∧
  (∀ lc method params, SendRequest lc method params ∈ trace r →
     method = "fixProject" ∧
     ∃ view kind, node = Some view ∧ picker_kind kind ∧
       params = [VStr (key_of (ov_workspaceFolder view)); VStr kind]) ∧
  final r = s.
Proof.
  intros Hq r. subst r.
  destruct node as [view|].
  - destruct (autoFixPick_trace h view s Hq) as [Ht Hf].
    rewrite Ht, Hf. split; [discriminate|].
    destruct (showInformationMessage h _ _) as [chosen| |];
      try (split; [cbn; lia|]; split; [|done];
           intros lc m ps Hin; apply list_elem_of_singleton in Hin;
           discriminate Hin).
    destruct (autoFixChosen_trace h view chosen s)
      as [-> | (lc0 & kind & Hkind & ->)].
    + split; [cbn; lia|]. split; [|done].
      intros lc m ps Hin. apply list_elem_of_singleton in Hin. discriminate Hin.
    + split; [cbn; lia|]. split; [|done].
      intros lc m ps Hin. apply list_elem_of_In in Hin. cbn in Hin.
      destruct Hin as [Hin | [Hin | []]]; [discriminate Hin|].
      injection Hin as <- <- <-. split; [done|]. by exists view, kind.
  - rewrite (drain_nil h s Hq : Extension.handle h (RunAutoFixPick None)
                                  CmdAutoFixPick s = ((), s, [])).
    split; [done|]. split; [cbn; lia|]. split; [|done].
    intros lc m ps Hin. by apply elem_of_nil in Hin.
Qed.

Lemma autoFix_picker_kinds_witness :
  count is_request
    (trace (Extension.handle hostDev (RunAutoFixPick (Some (mkObjectsView folderA)))
              CmdAutoFixPick activated)) ≤ 1.
Proof.
  exact (proj1 (proj2 (autoFix_picker_kinds hostDev (Some (mkObjectsView folderA))
                         activated eq_refl))).
Defined.

(** ** extension.ts: [setupGitEventHandler] and [activate] *)

Lemma installation_installed (h : Host) (workspaceFolder : WorkspaceFolder)
    (repo : RepositoryRef) (head : BranchRef) (name : string) :
  installation h workspaceFolder = Some (repo, head, name)
  ↔ eligible h workspaceFolder repo head name.
Proof.
  unfold installation, eligible. split.
  - destruct (getGitAPI h) as [gitApi|]; [|discriminate]. cbn -[truthy].
    destruct (getRepository gitApi (wf_uri workspaceFolder)) as [repo'|] eqn:Hr;
      [|discriminate]. cbn -[truthy].
    destruct (state_HEAD (heap h) repo') as [head'|] eqn:Hh; [|discriminate]. cbn -[truthy].
    destruct (Branch_name (heap h) head') as [name'|] eqn:Hn; [|discriminate]. cbn -[truthy].
    destruct (truthy (Some name')) eqn:Ht; cbn; [|discriminate].
    intros [= <- <- <-]. split; [by exists gitApi|].
    split; [done|]. split; [done|]. by apply truthy_Some.
  - intros ((gitApi & -> & Hr) & Hh & Hn & Hne). cbn -[truthy].
    rewrite Hr. cbn -[truthy]. rewrite Hh. cbn -[truthy]. rewrite Hn.
    cbn -[truthy].
    by rewrite (proj2 (truthy_Some name) Hne).
Qed.

Lemma setupFolder_exact (h : Host) (gitApi : GitAPI)
    (workspaceFolder : WorkspaceFolder) (s : State) :
  getGitAPI h = Some gitApi →
  Extension.setupFolder h gitApi workspaceFolder s
  = ((),
     match installation h workspaceFolder with
     | Some found => install workspaceFolder found.1.1 found.1.2 found.2 s
     | None => s
     end, []).
Proof.
  intros Hapi. unfold Extension.setupFolder, installation. rewrite Hapi. cbn -[truthy].
  destruct (getRepository gitApi (wf_uri workspaceFolder)) as [repo|];
    [|reflexivity]. cbn -[truthy].
  destruct (state_HEAD (heap h) repo) as [head|]; [|reflexivity]. cbn -[truthy].
  destruct (Branch_name (heap h) head) as [name|]; [|reflexivity]. cbn -[truthy].
  destruct (truthy (Some name)); reflexivity.
Qed.

Lemma listener_for_installation (h : Host) (workspaceFolder : WorkspaceFolder) :
  listener_for h workspaceFolder
  = match installation h workspaceFolder with
    | Some found =>
        Some (OnRepositoryState found.1.1 workspaceFolder
                (key_of workspaceFolder) found.1.2)
    | None => None
    end.
Proof. unfold listener_for. by destruct (installation h workspaceFolder). Qed.

Lemma setup_exact (h : Host) (folders : list WorkspaceFolder) (s : State) :
  let s' := final (Extension.setupGitEventHandler h folders s) in
  subscriptions s' = subscriptions s ++ omap (listener_for h) folders ∧
  lastBranch s' = foldl (store_branch h) (lastBranch s) folders.
Proof.
  cbn zeta. unfold Extension.setupGitEventHandler.
  destruct (getGitAPI h) as [gitApi|] eqn:Hapi.
  - revert s. induction folders as [|wf folders IH]; intros s.
    + split; [by rewrite app_nil_r | done].
    + rewrite for_of_final_cons, (setupFolder_exact h gitApi wf s Hapi).
      cbn [final fst snd foldl omap list_omap].
      destruct (IH (match installation h wf with
                    | Some found => install wf found.1.1 found.1.2 found.2 s
                    | None => s
                    end)) as [-> ->].
      rewrite listener_for_installation. unfold store_branch.
      destruct (installation h wf) as [[[repo head] name]|]; [|done].
      split; [|done]. unfold install. cbn [subscriptions push_subscriptions set_lastBranch].
      by rewrite <- app_assoc.
  - assert (Hnone : ∀ wf, installation h wf = None)
      by (intros wf; unfold installation; by rewrite Hapi).
    split.
    + induction folders as [|wf folders IH]; [by rewrite app_nil_r|].
      cbn [omap list_omap]. by rewrite listener_for_installation, Hnone.
    + induction folders as [|wf folders IH]; [done|].
      cbn [foldl]. unfold store_branch at 2. by rewrite Hnone.
Qed.

(** X5. [setupGitEventHandler] installs exactly one listener, in the order
    of its argument, for each folder that passes its tests (git API,
    repository, HEAD, usable HEAD name), and for each such folder stores the
    HEAD name under the folder's URI string; for a URI string that occurs
    several times the last folder wins. A folder passes the tests exactly
    when the conditions of the git wiring hold for it, so every eligible
    folder of the argument is watched afterwards. *)
Theorem setup_installs_exactly (h : Host) (folders : list WorkspaceFolder)
    (s : State) :
  let s' := final (Extension.setupGitEventHandler h folders s) in
  subscriptions s' = subscriptions s ++ omap (listener_for h) folders ∧
  lastBranch s' = foldl (store_branch h) (lastBranch s) folders ∧
  (∀ workspaceFolder, is_Some (installation h workspaceFolder)
                      ↔ installed h workspaceFolder) ∧
  (∀ workspaceFolder repo head name,
     workspaceFolder ∈ folders →
     eligible h workspaceFolder repo head name →
     OnRepositoryState repo workspaceFolder (key_of workspaceFolder) head
     ∈ subscriptions s').
Proof.
  cbn zeta. destruct (setup_exact h folders s) as [Hsubs Hlb].
  split; [exact Hsubs|]. split; [exact Hlb|]. split.
  - intros wf. split.
    + intros [[[repo head] name] Hi]. exists repo, head, name.
      by apply installation_installed.
    + intros (repo & head & name & He). exists (repo, head, name).
      by apply installation_installed.
  - intros wf repo head name Hin He. rewrite Hsubs.
    apply elem_of_app. right. apply list_elem_of_omap. exists wf.
    split; [done|]. unfold listener_for.
    by rewrite (proj2 (installation_installed h wf repo head name) He).
Qed.

Lemma setup_installs_exactly_witness :
  OnRepositoryState 1 folderB (key_of folderB) 11
  ∈ subscriptions (final (Extension.setupGitEventHandler hostMain
                            [folderA; folderB] activated)).
Proof.
  refine (proj2 (proj2 (proj2 (setup_installs_exactly hostMain
                                 [folderA; folderB] activated)))
            folderB 1 11 "main" _ _).
  - right. left.
  - apply installation_installed. reflexivity.
Defined.

Lemma activate_trace (h : Host) (s : State) :
  trace (Extension.activate h s)
  = ClientStart (created_client h) :: LoadIBMiProjectExplorer
      :: (if getProjectManager h then [PushExtensibleChildren] else []).
Proof.
  unfold Extension.activate. rewrite !bind_trace, ?bind_final.
  match goal with
  | |- context [trace (match workspaceFolders h with _ => _ end ?st)] =>
      assert (Hsetup : trace (match workspaceFolders h with
                              | Some folders => Extension.setupGitEventHandler h folders
                              | None => mret ()
                              end st) = [])
        by (destruct (workspaceFolders h);
            [apply setupGitEventHandler_trace | reflexivity]);
      rewrite Hsetup
  end.
  destruct (getProjectManager h); reflexivity.
Qed.

Lemma activate_shape (h : Host) (s : State) :
  let s' := final (Extension.activate h s) in
  let present := default [] (workspaceFolders h) in
  requests_client s' = Some (created_client h) ∧
  extension_client s' = Some (created_client h) ∧
  objectViews s' = ∅ ∧
  subscriptions s'
  = subscriptions s ++ Extension.registrations ++ omap (listener_for h) present ∧
  lastBranch s' = foldl (store_branch h) (lastBranch s) present.
Proof.
  cbn zeta. rewrite activate_final.
  destruct (workspaceFolders h) as [folders|]; cbn [default].
  - pose proof (setupGitEventHandler_fixed h folders (started h s)) as Hfix.
    unfold fixed_part in Hfix. injection Hfix as -> -> -> _.
    destruct (setup_exact h folders (started h s)) as [-> ->].
    repeat split; cbn; by rewrite <- ?app_assoc.
  - repeat split; cbn; by rewrite ?app_nil_r.
Qed.

(** X6. Activation starts the client it creates, loads the project
    explorer and, when there is a project manager, pushes the provider of
    project children: these are all its calls, so it sends no request.
    Afterwards both client variables hold the created client, [objectViews]
    is empty, the eight registrations of [activate] follow the earlier
    subscriptions, and the workspace folders present at that moment are set
    up as by [setupGitEventHandler]. *)
Theorem activation_outcome (h : Host) (s : State) :
  let r := Extension.activate h s in
  let present := default [] (workspaceFolders h) in
  trace r
  = ClientStart (created_client h) :: LoadIBMiProjectExplorer
      :: (if getProjectManager h then [PushExtensibleChildren] else []) ∧
  count is_request (trace r) = 0 ∧
  requests_client (final r) = Some (created_client h) ∧
  extension_client (final r) = Some (created_client h) ∧
  objectViews (final r) = ∅ ∧
  subscriptions (final r)
  = subscriptions s ++ Extension.registrations ++ omap (listener_for h) present ∧
  lastBranch (final r) = foldl (store_branch h) (lastBranch s) present.
Proof.
  cbn zeta. rewrite activate_trace.
  split; [done|]. split; [destruct (getProjectManager h); reflexivity|].
  apply activate_shape.
Qed.

(** ** extension.ts: what is never undone *)

Lemma omap_listener_for_repository (h : Host) (folders : list WorkspaceFolder) :
  Forall is_repository_listener (omap (listener_for h) folders).
Proof.
  apply Forall_forall. intros sub Hin.
  apply list_elem_of_omap in Hin as (wf & _ & Hsub).
  rewrite listener_for_installation in Hsub.
  destruct (installation h wf); [|discriminate Hsub].
  by injection Hsub as <-.
Qed.

Lemma foldl_store_branch_dom (h : Host) (folders : list WorkspaceFolder)
    (branches : gmap string string) :
  dom branches ⊆ dom (foldl (store_branch h) branches folders).
Proof.
  revert branches. induction folders as [|wf folders IH]; intros branches; [done|].
  cbn [foldl]. etrans; [|apply IH].
  unfold store_branch. destruct (installation h wf); [|done].
  rewrite dom_insert_L. set_solver.
Qed.

Lemma grown_refl (s : State) : grown s s.
Proof. split; [exists []; by rewrite app_nil_r | done]. Qed.

Lemma grown_trans (s1 s2 s3 : State) : grown s1 s2 → grown s2 s3 → grown s1 s3.
Proof.
  intros [(e1 & H1 & F1) D1] [(e2 & H2 & F2) D2]. split; [|by etrans].
  exists (e1 ++ e2). split; [by rewrite H2, H1, app_assoc | by apply Forall_app].
Qed.

Lemma grown_same (s s' : State) : git_part s' = git_part s → grown s s'.
Proof.
  unfold git_part. intros [= Hlb Hsubs]. split; [|by rewrite Hlb].
  exists []. by rewrite app_nil_r.
Qed.

Lemma listener_grown (h : Host) (ev : Event) (sub : Subscription) (s : State) :
  grown s (final (Extension.listener h ev sub s)).
Proof.
  assert (Hother : (∀ added, ev ≠ DidChangeWorkspaceFolders added) →
                   (∀ repo, ev ≠ RepositoryStateChanged repo) →
                   grown s (final (Extension.listener h ev sub s)))
    by (intros; by apply grown_same, listener_git).
  destruct ev; try (by apply Hother).
  - destruct sub; cbn [Extension.listener]; try apply grown_refl.
    unfold Extension.onDidChangeWorkspaceFolders.
    destruct (setup_exact h added s) as [Hsubs Hlb]. split.
    + exists (omap (listener_for h) added).
      split; [done | apply omap_listener_for_repository].
    + rewrite Hlb. apply foldl_store_branch_dom.
  - destruct sub; cbn [Extension.listener]; try apply grown_refl.
    case_bool_decide; [|apply grown_refl].
    destruct (onRepositoryState_final h workspaceFolder workspaceUri head s)
      as [-> | (cb & q & _ & _ & ->)]; [apply grown_refl|].
    split; [exists []; by rewrite app_nil_r|].
    cbn. rewrite dom_insert_L. set_solver.
Qed.

Lemma dispatch_grown (h : Host) (ev : Event) (s : State) :
  grown s (final (Extension.dispatch h ev s)).
Proof.
  rewrite dispatch_final.
  set (s1 := final (for_of (subscriptions s) (Extension.listener h ev) s)).
  assert (H1 : grown s s1).
  { subst s1. generalize (subscriptions s) as subs. intros subs. revert s.
    apply (for_of_final_rel grown); [apply grown_refl | apply grown_trans |].
    intros sub s _. apply listener_grown. }
  destruct (provide_parts ev s1) as (_ & _ & _ & Pgit & _).
  eapply grown_trans; [exact H1|]. by apply grown_same.
Qed.

(** X7. No event undoes any wiring: the subscriptions present before an
    event are still there after it, in the same order, and whatever was
    added is a repository listener; every key of [lastBranch] is still a
    key. The code disposes of no listener and deletes no entry, also not
    for workspace folders that have gone. *)
Theorem nothing_is_disposed (h : Host) (ev : Event) (s : State) :
  let s' := final (Extension.dispatch h ev s) in
  subscriptions s `prefix_of` subscriptions s' ∧
  (∀ sub, sub ∈ subscriptions s' →
     sub ∈ subscriptions s ∨ is_repository_listener sub) ∧
  (∀ workspaceUri, is_Some (lastBranch s !! workspaceUri) →
     is_Some (lastBranch s' !! workspaceUri)).
Proof.
  cbn zeta. destruct (dispatch_grown h ev s) as [(extra & Hsubs & Hextra) Hdom].
  split; [by exists extra|]. split.
  - intros sub Hin. rewrite Hsubs in Hin.
    apply elem_of_app in Hin as [Hin | Hin]; [by left|]. right.
    rewrite Forall_forall in Hextra. by apply Hextra.
  - intros u Hu. apply elem_of_dom. apply Hdom. by apply elem_of_dom.
Qed.

Lemma nothing_is_disposed_witness :
  is_Some (lastBranch (final (Extension.dispatch hostDetached
                                (RepositoryStateChanged 1) activated))
           !! "file:///proj/a").
Proof.
  apply (nothing_is_disposed hostDetached (RepositoryStateChanged 1) activated).
  by exists "main".
Defined.

(** ** extension.ts: the repository listener over several events *)

(** One listener run alone, twice: after a run at which it read the usable
    name [b], that name is stored under its key and no continuation is
    pending; at a following run at which it reads [b] again it sends no
    request and only asks for the changed files. *)
Lemma listener_rerun_same_branch (h h' : Host) (repo : RepositoryRef)
    (workspaceFolder : WorkspaceFolder) (workspaceUri : string)
    (head : BranchRef) (branch : string) (s : State) :
  microtasks s = [] →
  Branch_name (heap h) head = Some branch →
  Branch_name (heap h') head = Some branch →
  branch ≠ "" →
  let sub := OnRepositoryState repo workspaceFolder workspaceUri head in
  let s1 := final (Extension.handle h (RepositoryStateChanged repo) sub s) in
  let r := Extension.handle h' (RepositoryStateChanged repo) sub s1 in
  lastBranch s1 !! workspaceUri = Some branch ∧
  microtasks s1 = [] ∧
  count is_request (trace r) = 0 ∧
  trace r
  = GetChangedFiles workspaceFolder
      :: match getDeployGitFiles h' workspaceFolder with
         | Fulfilled files => [ShowImpactFor gitImpactView files]
         | _ => []
         end ∧
  lastBranch (final r) = lastBranch s1.
Proof.
  intros Hq Hname Hname' Hne sub s1 r.
  assert (Hs1 : lastBranch s1 !! workspaceUri = Some branch ∧ microtasks s1 = []).
  { subst s1 sub. rewrite handle_repository, bind_final, drain_final.
    split; [|reflexivity]. cbn [set_microtasks lastBranch].
    destruct (decide (truthy (lastBranch s !! workspaceUri) = false ∨
                      lastBranch s !! workspaceUri = Some branch))
      as [Hsame | Hdiff].
    - rewrite (onRepositoryState_unchanged h workspaceFolder workspaceUri
                 head s branch Hname Hne Hsame).
      cbn. by rewrite lookup_insert_eq.
    - destruct (lastBranch s !! workspaceUri) as [last|] eqn:Hlast;
        [|destruct Hdiff; by left].
      assert (Hl : last ≠ "").
      { intros ->. apply Hdiff. by left. }
      assert (Hd : branch ≠ last).
      { intros ->. apply Hdiff. by right. }
      rewrite (onRepositoryState_switched h workspaceFolder workspaceUri head
                 s branch last Hname Hne Hlast Hl Hd).
      cbn. by rewrite lookup_insert_eq. }
  destruct Hs1 as [Hlb1 Hq1]. split; [exact Hlb1|]. split; [exact Hq1|].
  subst r sub. rewrite handle_repository, bind_trace, bind_final.
  rewrite (onRepositoryState_unchanged h' workspaceFolder workspaceUri head s1
             branch Hname' Hne) by (by right).
  cbn [trace final result fst snd].
  generalize dependent s1. intros s1 Hlb1 Hq1.
  destruct s1 as [rc ec lb ov subs ch q]. cbn in Hlb1, Hq1. subst q.
  rewrite drain_final.
  destruct (getDeployGitFiles h' workspaceFolder); cbn;
    (split; [reflexivity|]); (split; [reflexivity|]); by rewrite insert_id.
Qed.

(** X9. At an event at which the HEAD object the listener holds has no
    usable name (none, or the empty string, as with a detached HEAD) the
    listener does nothing at all: no call, no change of the stored name, not
    even a refresh of the git-impact view. *)
Theorem unnamed_head_is_ignored (h : Host) (repo : RepositoryRef)
    (workspaceFolder : WorkspaceFolder) (workspaceUri : string)
    (head : BranchRef) (s : State) :
  microtasks s = [] →
  truthy (Branch_name (heap h) head) = false →
  Extension.handle h (RepositoryStateChanged repo)
    (OnRepositoryState repo workspaceFolder workspaceUri head) s
  = ((), s, []).
Proof.
  intros Hq Hname. rewrite handle_repository.
  pose proof (onRepositoryState_unnamed h workspaceFolder workspaceUri head s
                Hname) as Hrun.
  pose proof (drain_nil h s Hq) as Hdrain.
  cbv [mbind M_bind]. rewrite Hrun. cbn [fst snd]. by rewrite Hdrain.
Qed.

Lemma unnamed_head_is_ignored_witness :
  Extension.handle hostDetached (RepositoryStateChanged 1)
    (OnRepositoryState 1 folderA "file:///proj/a" 11) activated
  = ((), activated, []).
Proof.
  exact (unnamed_head_is_ignored hostDetached 1 folderA "file:///proj/a" 11
           activated eq_refl eq_refl).
Defined.

(** ** Invariants of the states between events *)

Lemma dispatch_clients (h : Host) (ev : Event) (s : State) :
  requests_client (final (Extension.dispatch h ev s)) = requests_client s ∧
  extension_client (final (Extension.dispatch h ev s)) = extension_client s.
Proof.
  rewrite dispatch_final.
  pose proof (listeners_fixed h ev (subscriptions s) s) as Hfix.
  unfold fixed_part in Hfix. injection Hfix as Hrc Hec _ _.
  destruct (provide_parts ev
              (final (for_of (subscriptions s) (Extension.listener h ev) s)))
    as (Prc & Pec & _).
  cbn [set_microtasks requests_client extension_client]. split; congruence.
Qed.

Lemma dispatch_views_keyed (h : Host) (ev : Event) (s : State) :
  views_keyed s → views_keyed (final (Extension.dispatch h ev s)).
Proof.
  intros Hs. rewrite dispatch_final.
  set (s1 := final (for_of (subscriptions s) (Extension.listener h ev) s)).
  pose proof (listeners_fixed h ev (subscriptions s) s) as Hfix. fold s1 in Hfix.
  unfold fixed_part in Hfix. injection Hfix as _ _ Hov _.
  assert (H1 : views_keyed s1) by (intros k v; rewrite Hov; apply Hs).
  intros k v. cbn [set_microtasks objectViews].
  destruct ev; cbn [Extension.provide]; try apply H1.
  unfold Extension.extensibleChildrenOf. run.
  destruct (extensibleChildren s1); cbn; [|apply H1].
  destruct (decide (uri_fsPath (wf_uri (ip_workspaceFolder iProject)) = k))
    as [<-|Hk].
  - rewrite lookup_insert_eq. by intros [= <-].
  - rewrite lookup_insert_ne by done. apply H1.
Qed.

Lemma reachable_shape (s : State) :
  reachable s → connected s ∧ views_keyed s ∧ registered_once s.
Proof.
  induction 1 as [h branches | h ev s _ (Hc & Hv & Hr)].
  - destruct (activate_shape h (initial branches)) as (Hrc & Hec & Hov & Hsubs & _).
    split; [by exists h|]. split.
    + intros k v. rewrite Hov, lookup_empty. discriminate.
    + eexists. split; [exact Hsubs | apply omap_listener_for_repository].
  - split; [|split].
    + destruct Hc as (h0 & Hrc & Hec). exists h0.
      destruct (dispatch_clients h ev s) as [-> ->]. done.
    + by apply dispatch_views_keyed.
    + destruct Hr as (listeners & Hsubs & Hl).
      destruct (dispatch_grown h ev s) as [(extra & Hgrow & Hextra) _].
      exists (listeners ++ extra).
      split; [by rewrite Hgrow, Hsubs, app_assoc | by apply Forall_app].
Qed.

Lemma perform_connected (h : Host) (c : Call) (s : State) (lc : LanguageClient) :
  requests_client s = Some lc →
  trace (perform h c s)
  = [SendRequest lc (documented_request c).1 (documented_request c).2].
Proof.
  intros Hc.
  assert (Hmap : ∀ l : list Uri,
             VStr <$> (uri_toString <$> l) = (λ uri, VStr (uri_toString uri)) <$> l).
  { intros l. by rewrite <- list_fmap_compose. }
  destruct c; cbn [perform documented_request folder_of fst snd];
    unfold_requests; run; rewrite Hc; cbn; by rewrite ?Hmap.
Qed.



(** X11. Between events every installed repository listener is kept under
    the URI string of its own workspace folder, and a non-empty branch name
    is stored under that key: when the listener runs, the name it compares
    with is always there. *)
Theorem listeners_have_a_stored_branch (s : State) (repo : RepositoryRef)
    (workspaceFolder : WorkspaceFolder) (workspaceUri : string)
    (head : BranchRef) :
  reachable s →
  OnRepositoryState repo workspaceFolder workspaceUri head ∈ subscriptions s →
  workspaceUri = key_of workspaceFolder ∧
  ∃ last, lastBranch s !! workspaceUri = Some last ∧ last ≠ "" ∧
          truthy (lastBranch s !! workspaceUri) = true.
Proof.
  intros Hreach Hin.
  destruct (reachable_steady s Hreach) as [[_ Hw] _].
  destruct (Hw repo workspaceFolder workspaceUri head Hin)
    as [Hkey (last & Hlast & Hne)].
  split; [exact Hkey|]. exists last. split; [exact Hlast|]. split; [exact Hne|].
  rewrite Hlast. by apply truthy_Some.
Qed.

Lemma listeners_have_a_stored_branch_witness :
  "file:///proj/a" = key_of folderA ∧
  ∃ last, lastBranch activated !! "file:///proj/a" = Some last ∧ last ≠ "" ∧
          truthy (lastBranch activated !! "file:///proj/a") = true.
Proof.
  exact (listeners_have_a_stored_branch activated 1 folderA "file:///proj/a" 11
           (reachable_activate hostMain ∅) activated_watches_folderA).
Defined.

(** ** extension.ts: one event, all listeners *)

Lemma for_of_idle {A} (xs : list A) (body : A → M unit) (s : State) :
  (∀ x, x ∈ xs → body x s = ((), s, [])) →
  for_of xs body s = ((), s, []).
Proof.
  induction xs as [|x xs IH]; intros Hidle; [reflexivity|].
  cbn [for_of]. cbv [mbind M_bind]. rewrite (Hidle x) by left. cbn [fst snd].
  rewrite IH by (intros y Hy; apply Hidle; by right). reflexivity.
Qed.

Lemma for_of_app_idle {A} (xs ys : list A) (body : A → M unit) (s : State) :
  (∀ y s', y ∈ ys → body y s' = ((), s', [])) →
  trace (for_of (xs ++ ys) body s) = trace (for_of xs body s) ∧
  final (for_of (xs ++ ys) body s) = final (for_of xs body s).
Proof.
  intros Hidle. revert s. induction xs as [|x xs IH]; intros s.
  - cbn [app]. rewrite for_of_idle by (intros y Hy; by apply Hidle). done.
  - cbn [app]. rewrite !for_of_trace_cons, !for_of_final_cons.
    destruct (IH (final (body x s))) as [-> ->]. done.
Qed.

Lemma repository_listener_idle (h : Host) (ev : Event) (sub : Subscription)
    (s : State) :
  is_repository_listener sub →
  (∀ repo, ev ≠ RepositoryStateChanged repo) →
  Extension.listener h ev sub s = ((), s, []).
Proof.
  intros Hsub Hev. destruct sub; try done.
  destruct ev; try reflexivity. by destruct (Hev repo0).
Qed.

Lemma unheard_event_idle (h : Host) (ev : Event) (sub : Subscription) (s : State) :
  registration_of ev = None →
  (∀ repo, ev ≠ RepositoryStateChanged repo) →
  Extension.listener h ev sub s = ((), s, []).
Proof.
  intros Hreg Hev. destruct ev; try discriminate Hreg;
    try (by destruct (Hev repo)); destruct sub; reflexivity.
Qed.

Lemma registrations_run (h : Host) (ev : Event) (sub : Subscription) (s : State) :
  registration_of ev = Some sub →
  trace (for_of Extension.registrations (Extension.listener h ev) s)
  = trace (Extension.listener h ev sub s) ∧
  final (for_of Extension.registrations (Extension.listener h ev) s)
  = final (Extension.listener h ev sub s).
Proof.
  intros Hreg. unfold Extension.registrations.
  rewrite !for_of_trace_cons, !for_of_final_cons.
  destruct ev; try discriminate Hreg; injection Hreg as <-;
    cbn [Extension.listener for_of];
    repeat change (final ((mret () : M unit) ?st)) with st;
    repeat change (trace ((mret () : M unit) ?st)) with (@nil Effect);
    cbn [app]; by rewrite ?app_nil_r.
Qed.

Lemma dispatch_heard_once (h : Host) (ev : Event) (sub : Subscription)
    (s : State) :
  reachable s →
  registration_of ev = Some sub →
  trace (Extension.dispatch h ev s) = trace (Extension.handle h ev sub s) ∧
  final (Extension.dispatch h ev s) = final (Extension.handle h ev sub s).
Proof.
  intros Hreach Hreg.
  destruct (reachable_shape s Hreach) as (_ & _ & listeners & Hsubs & Hl).
  assert (Hnot : ∀ repo, ev ≠ RepositoryStateChanged repo)
    by (intros repo ->; discriminate Hreg).
  assert (Hrun : trace (for_of (subscriptions s) (Extension.listener h ev) s)
                 = trace (Extension.listener h ev sub s) ∧
                 final (for_of (subscriptions s) (Extension.listener h ev) s)
                 = final (Extension.listener h ev sub s)).
  { rewrite Hsubs.
    destruct (for_of_app_idle Extension.registrations listeners
                (Extension.listener h ev) s) as [-> ->].
    - intros y s' Hy. apply repository_listener_idle; [|done].
      rewrite Forall_forall in Hl. by apply Hl.
    - by apply registrations_run. }
  destruct Hrun as [Ht Hf].
  assert (Hprovide : Extension.provide ev = mret ())
    by (destruct ev; try reflexivity; discriminate Hreg).
  split.
  - unfold Extension.dispatch, Extension.handle.
    rewrite !bind_trace. cbn [gets trace result final fst snd app].
    change (trace (gets subscriptions s)) with (@nil Effect).
    change (final (gets subscriptions s)) with s.
    change (result (gets subscriptions s)) with (subscriptions s).
    rewrite ?bind_trace, ?bind_final, Hprovide. rewrite Ht, Hf.
    change (trace ((mret () : M unit) ?st)) with (@nil Effect). reflexivity.
  - rewrite dispatch_final, Hprovide, Hf.
    unfold Extension.handle. by rewrite bind_final, drain_final.
Qed.

(** X12. Between events each command and each editor event is heard by
    exactly one listener, the one [activate] registered for it, however many
    repository listeners have been added since: the calls and the state
    after the whole event are those of that one listener run to completion.
    A saved document is heard by no listener: nothing is called and nothing
    changes. *)
Theorem one_listener_per_event (h : Host) (ev : Event) (sub : Subscription)
    (s : State) :
  reachable s →
  registration_of ev = Some sub →
  trace (Extension.dispatch h ev s) = trace (Extension.handle h ev sub s) ∧
  final (Extension.dispatch h ev s) = final (Extension.handle h ev sub s) ∧
  ∀ doc, Extension.dispatch h (DidSaveTextDocument doc) s = ((), s, []).
Proof.
  intros Hreach Hreg.
  destruct (dispatch_heard_once h ev sub s Hreach Hreg) as [Ht Hf].
  destruct (reachable_steady s Hreach) as [_ Hq].
  split; [exact Ht|]. split; [exact Hf|].
  intros doc. unfold Extension.dispatch. cbv [mbind M_bind gets].
  cbn [fst snd].
  rewrite for_of_idle
    by (intros x _; by apply unheard_event_idle).
  cbn [fst snd Extension.provide]. cbv [mret M_ret]. cbn [fst snd].
  rewrite (drain_nil h s Hq). reflexivity.
Qed.

Lemma one_listener_per_event_witness :
  trace (Extension.dispatch hostMain
           (DidChangeActiveTextEditor (Some (mkTextEditor (Some (mkTextDocument fileX)))))
           activated)
  = trace (Extension.handle hostMain
             (DidChangeActiveTextEditor (Some (mkTextEditor (Some (mkTextDocument fileX)))))
             OnDidChangeActiveTextEditor activated).
Proof.
  exact (proj1 (one_listener_per_event hostMain
                  (DidChangeActiveTextEditor
                     (Some (mkTextEditor (Some (mkTextDocument fileX)))))
                  OnDidChangeActiveTextEditor activated
                  (reachable_activate hostMain ∅) eq_refl)).
Defined.

(** ** extension.ts: the provider of project children *)

Lemma dispatch_project_children (h : Host) (iProject : IProject) (s : State) :
  microtasks s = [] →
  Extension.dispatch h (ProjectChildrenRequested iProject) s
  = ((),
     if extensibleChildren s
     then set_objectViews (uri_fsPath (wf_uri (ip_workspaceFolder iProject)))
            (mkObjectsView (ip_workspaceFolder iProject)) s
     else s,
     []).
Proof.
  intros Hq. unfold Extension.dispatch. cbv [mbind M_bind gets]. cbn [fst snd].
  rewrite for_of_idle by (intros x _; by apply unheard_event_idle).
  cbn [fst snd Extension.provide]. unfold Extension.extensibleChildrenOf.
  cbv [mbind M_bind mret M_ret gets modify]. cbn [fst snd].
  destruct s as [rc ec lb ov subs ch q]. cbn in Hq. subst q.
  destruct ch; reflexivity.
Qed.

(** X13. When the project manager asks for the children of a project, the
    provider pushed by [activate] answers with one view, bound to the
    project's workspace folder, and that same view is what [objectViews]
    holds afterwards under the file-system path of the folder, in place of
    whatever was kept there; no call is made and no other key changes.
    Asked again for the same project it again keeps, under the same path, a
    view bound to the same folder. Without a project manager at activation
    nothing was pushed and [objectViews] stays as it is. Between events
    every view in [objectViews] is kept under the path of its own folder. *)
Theorem project_children_provider (h h' : Host) (iProject : IProject)
    (s : State) :
  reachable s →
  let fsPath := uri_fsPath (wf_uri (ip_workspaceFolder iProject)) in
  let r := Extension.dispatch h (ProjectChildrenRequested iProject) s in
  let r' := Extension.dispatch h' (ProjectChildrenRequested iProject) (final r) in
  views_keyed s ∧
  trace r = [] ∧
  (∃ view,
     ov_workspaceFolder view = ip_workspaceFolder iProject ∧
     result (Extension.extensibleChildrenOf iProject s) = [view] ∧
     objectViews (final (Extension.extensibleChildrenOf iProject s)) !! fsPath
     = Some view ∧
     objectViews (final r)
     = (if extensibleChildren s then <[fsPath := view]> (objectViews s)
        else objectViews s)) ∧
  (extensibleChildren s = true →
     ∃ view', objectViews (final r') !! fsPath = Some view' ∧
              ov_workspaceFolder view' = ip_workspaceFolder iProject) ∧
  (∀ k, k ≠ fsPath → objectViews (final r') !! k = objectViews s !! k).
Proof.
  intros Hreach fsPath r r'.
  destruct (reachable_shape s Hreach) as (_ & Hv & _).
  destruct (reachable_steady s Hreach) as [_ Hq].
  assert (Hr : r = ((),
                    if extensibleChildren s
                    then set_objectViews fsPath
                           (mkObjectsView (ip_workspaceFolder iProject)) s
                    else s, []))
    by (subst r; by rewrite (dispatch_project_children h iProject s Hq)).
  assert (Hr' : final r'
                = if extensibleChildren s
                  then set_objectViews fsPath
                         (mkObjectsView (ip_workspaceFolder iProject))
                         (set_objectViews fsPath
                            (mkObjectsView (ip_workspaceFolder iProject)) s)
                  else s).
  { subst r'. rewrite Hr. cbn [final fst snd].
    destruct (extensibleChildren s) eqn:Hch.
    - rewrite dispatch_project_children by exact Hq.
      cbn [final fst snd extensibleChildren set_objectViews]. by rewrite Hch.
    - rewrite dispatch_project_children by exact Hq.
      cbn [final fst snd]. by rewrite Hch. }
  split; [exact Hv|]. split; [by rewrite Hr|]. split; [|split].
  - exists (mkObjectsView (ip_workspaceFolder iProject)).
    split; [reflexivity|]. split; [reflexivity|].
    split.
    { unfold Extension.extensibleChildrenOf, final.
      cbv [mbind M_bind mret M_ret modify].
      cbn [fst snd objectViews set_objectViews]. apply lookup_insert_eq. }
    rewrite Hr. cbn [final fst snd]. by destruct (extensibleChildren s).
  - intros Hch. rewrite Hr', Hch.
    exists (mkObjectsView (ip_workspaceFolder iProject)).
    split; [cbn; by rewrite lookup_insert_eq | reflexivity].
  - intros k Hk. rewrite Hr'.
    destruct (extensibleChildren s); [|reflexivity].
    cbn. by rewrite !lookup_insert_ne.
Qed.

Lemma project_children_provider_witness :
  ∃ view', objectViews
             (final (Extension.dispatch hostMain (ProjectChildrenRequested projectA)
                       (final (Extension.dispatch hostMain
                                 (ProjectChildrenRequested projectA) activated))))
           !! "/proj/a" = Some view' ∧
           ov_workspaceFolder view' = folderA.
Proof.
  exact (proj1 (proj2 (proj2 (proj2
           (project_children_provider hostMain hostMain projectA activated
              (reachable_activate hostMain ∅))))) eq_refl).
Defined.

(** ** extension.ts: [deactivate] *)

(** X14. Before any activation [deactivate] returns [undefined] and stops
    nothing. Between events, from activation on, it stops the client that
    activation created and started, and changes no variable: the request
    module keeps its connection, so a request function called afterwards
    still sends on the stopped client. [deactivate] reads the client
    variable of the extension module only: after [setClient] with another
    client it still stops the one activation created. *)
Theorem deactivate_stops_created_client (s : State) (branches : gmap string string)
    (other : LanguageClient) (h : Host) (c : Call) :
  reachable s →
  Extension.deactivate (initial branches) = (None, initial branches, []) ∧
  ∃ h0,
    Extension.deactivate s = (Some (), s, [ClientStop (created_client h0)]) ∧
    trace (perform h c (final (Extension.deactivate s)))
    = [SendRequest (created_client h0)
         (documented_request c).1 (documented_request c).2] ∧
    trace ((Requests.setClient other;; Extension.deactivate) s)
    = [ClientStop (created_client h0)].
Proof.
  intros Hreach. split; [reflexivity|].
  destruct (reachable_shape s Hreach) as ((h0 & Hrc & Hec) & _).
  exists h0.
  assert (Hd : Extension.deactivate s
               = (Some (), s, [ClientStop (created_client h0)])).
  { unfold Extension.deactivate. run. by rewrite Hec. }
  split; [exact Hd|]. split.
  - rewrite Hd. cbn [final fst snd]. by apply perform_connected.
  - unfold Extension.deactivate. run. cbn. by rewrite Hec.
Qed.

Lemma deactivate_stops_created_client_witness :
  ∃ h0, Extension.deactivate activated
        = (Some (), activated, [ClientStop (created_client h0)]).
Proof.
  destruct (deactivate_stops_created_client activated ∅ sampleClient hostMain
              (CallIsReady folderA) (reachable_activate hostMain ∅))
    as (_ & h0 & Hd & _).
  by exists h0.
Defined.

(** ** extension.ts: workspace folders added later *)

(** X15. Between events, folders reported as added are set up exactly as
    at activation, by the one listener registered for that event: no call is
    made, a listener is appended for each added folder that is eligible at
    that moment, and its HEAD name is stored. Nothing is checked against
    the listeners already there: an eligible folder that is already watched
    gets a second, equal listener. *)
Theorem workspace_folders_added (h : Host) (added : list WorkspaceFolder)
    (s : State) :
  reachable s →
  let r := Extension.dispatch h (DidChangeWorkspaceFolders added) s in
  trace r = [] ∧
  subscriptions (final r) = subscriptions s ++ omap (listener_for h) added ∧
  lastBranch (final r) = foldl (store_branch h) (lastBranch s) added ∧
  ∀ workspaceFolder repo head name,
    workspaceFolder ∈ added →
    eligible h workspaceFolder repo head name →
    OnRepositoryState repo workspaceFolder (key_of workspaceFolder) head
    ∈ subscriptions s →
    ¬ NoDup (subscriptions (final r)).
Proof.
  intros Hreach r. subst r.
  destruct (dispatch_heard_once h (DidChangeWorkspaceFolders added)
              OnDidChangeWorkspaceFolders s Hreach eq_refl) as [-> ->].
  destruct (reachable_steady s Hreach) as [_ Hq].
  unfold Extension.handle. rewrite bind_trace, bind_final, drain_final.
  cbn [Extension.listener]. unfold Extension.onDidChangeWorkspaceFolders.
  rewrite setupGitEventHandler_trace.
  rewrite drain_nil by (by rewrite setupGitEventHandler_queue).
  destruct (setup_exact h added s) as [Hsubs Hlb].
  cbn [set_microtasks subscriptions lastBranch trace snd app].
  split; [reflexivity|]. split; [exact Hsubs|]. split; [exact Hlb|].
  intros wf repo head name Hwf He Hin Hnodup. rewrite Hsubs in Hnodup.
  apply NoDup_app in Hnodup as (_ & Hdisjoint & _).
  apply (Hdisjoint _ Hin). apply list_elem_of_omap. exists wf.
  split; [done|]. rewrite listener_for_installation.
  by rewrite (proj2 (installation_installed h wf repo head name) He).
Qed.

Lemma workspace_folders_added_witness :
  ¬ NoDup (subscriptions (final (Extension.dispatch hostMain
                                   (DidChangeWorkspaceFolders [folderA]) activated))).
Proof.
  refine (proj2 (proj2 (proj2 (workspace_folders_added hostMain [folderA]
                                 activated (reachable_activate hostMain ∅))))
            folderA 1 11 "main" _ _ activated_watches_folderA).
  - left.
  - apply installation_installed. reflexivity.
Defined.

(** * Events as a whole *)

(** ** A repository event and the listeners it reaches *)

Lemma not_heard_idle (h : Host) (repo : RepositoryRef) (sub : Subscription)
    (s : State) :
  hears repo sub = false →
  Extension.listener h (RepositoryStateChanged repo) sub s = ((), s, []).
Proof.
  destruct sub; try reflexivity. cbn [hears Extension.listener].
  by intros ->.
Qed.

Lemma heard_listener (h : Host) (repo : RepositoryRef) (sub : Subscription)
    (s : State) :
  hears repo sub = true →
  ∃ workspaceFolder workspaceUri head,
    sub = OnRepositoryState repo workspaceFolder workspaceUri head ∧
    Extension.listener h (RepositoryStateChanged repo) sub s
    = Extension.onRepositoryState h workspaceFolder workspaceUri head s.
Proof.
  destruct sub; try discriminate. cbn [hears Extension.listener].
  intros Hr. rewrite Hr. apply bool_decide_eq_true in Hr as ->. eauto.
Qed.

Lemma heard_by_cons (repo : RepositoryRef) (sub : Subscription)
    (subs : list Subscription) :
  heard_by repo (sub :: subs)
  = if hears repo sub then sub :: heard_by repo subs else heard_by repo subs.
Proof. unfold heard_by. cbn [omap list_omap]. by destruct (hears repo sub). Qed.

Lemma elem_of_heard_by (repo : RepositoryRef) (sub : Subscription)
    (subs : list Subscription) :
  sub ∈ heard_by repo subs ↔ sub ∈ subs ∧ hears repo sub = true.
Proof.
  unfold heard_by. rewrite list_elem_of_omap. split.
  - intros (x & Hx & Hsub). destruct (hears repo x) eqn:Hh; [|discriminate].
    injection Hsub as <-. done.
  - intros [Hin Hh]. exists sub. by rewrite Hh.
Qed.

Lemma dispatch_repository_trace (h : Host) (repo : RepositoryRef) (s : State) :
  let r := for_of (subscriptions s)
             (Extension.listener h (RepositoryStateChanged repo)) s in
  trace (Extension.dispatch h (RepositoryStateChanged repo) s)
  = trace r ++ trace (Extension.drain h (final r)) ∧
  final (Extension.dispatch h (RepositoryStateChanged repo) s)
  = set_microtasks [] (final r).
Proof.
  cbn zeta. split; [|by rewrite dispatch_final].
  unfold Extension.dispatch. rewrite bind_trace.
  change (trace (gets subscriptions s)) with (@nil Effect).
  change (final (gets subscriptions s)) with s.
  change (result (gets subscriptions s)) with (subscriptions s).
  rewrite app_nil_l, !bind_trace. cbn [Extension.provide].
  change (trace ((mret () : M unit) ?st)) with (@nil Effect).
  reflexivity.
Qed.

(** A single listener on the repository: the event is its run. *)
Lemma listeners_sole (h : Host) (repo : RepositoryRef)
    (subs : list Subscription) (sub : Subscription) :
  heard_by repo subs = [sub] →
  ∀ s,
    trace (for_of subs (Extension.listener h (RepositoryStateChanged repo)) s)
    = trace (Extension.listener h (RepositoryStateChanged repo) sub s) ∧
    final (for_of subs (Extension.listener h (RepositoryStateChanged repo)) s)
    = final (Extension.listener h (RepositoryStateChanged repo) sub s).
Proof.
  induction subs as [|x subs IH]; intros Hsole s; [discriminate Hsole|].
  rewrite heard_by_cons in Hsole.
  rewrite for_of_trace_cons, for_of_final_cons.
  destruct (hears repo x) eqn:Hx.
  - injection Hsole as -> Hrest.
    rewrite for_of_idle; [by rewrite app_nil_r|].
    intros y Hy. apply not_heard_idle.
    destruct (hears repo y) eqn:Hhy; [|done].
    assert (y ∈ heard_by repo subs) by (by apply elem_of_heard_by).
    rewrite Hrest in H. by apply elem_of_nil in H.
  - rewrite (not_heard_idle h repo x s Hx). cbn [trace final fst snd app].
    by apply IH.
Qed.

Lemma dispatch_sole (h : Host) (repo : RepositoryRef) (sub : Subscription)
    (s : State) :
  heard_by repo (subscriptions s) = [sub] →
  trace (Extension.dispatch h (RepositoryStateChanged repo) s)
  = trace (Extension.handle h (RepositoryStateChanged repo) sub s) ∧
  final (Extension.dispatch h (RepositoryStateChanged repo) s)
  = final (Extension.handle h (RepositoryStateChanged repo) sub s).
Proof.
  intros Hsole.
  destruct (dispatch_repository_trace h repo s) as [-> ->].
  destruct (listeners_sole h repo (subscriptions s) sub Hsole s) as [-> ->].
  unfold Extension.handle. rewrite bind_trace, bind_final, drain_final. done.
Qed.

Lemma watching_cons (repo : RepositoryRef) (sub : Subscription)
    (subs : list Subscription) :
  watching repo (sub :: subs)
  = match sub with
    | OnRepositoryState r workspaceFolder _ _ =>
        if bool_decide (r = repo) then workspaceFolder :: watching repo subs
        else watching repo subs
    | _ => watching repo subs
    end.
Proof.
  unfold watching. rewrite heard_by_cons.
  destruct sub; try reflexivity. cbn [hears].
  by destruct (bool_decide (repo0 = repo)).
Qed.

Lemma showings_cons (h : Host) (workspaceFolder : WorkspaceFolder)
    (folders : list WorkspaceFolder) :
  showings h (workspaceFolder :: folders)
  = match getDeployGitFiles h workspaceFolder with
    | Fulfilled files => [ThenShowImpactFor gitImpactView files]
    | _ => []
    end ++ showings h folders.
Proof.
  unfold showings, changed_files. cbn [omap list_omap].
  by destruct (getDeployGitFiles h workspaceFolder).
Qed.

(** Every listener on the repository reads the name stored under its key:
    each asks for the changed files of its folder and queues their showing;
    [lastBranch] stays. *)
Lemma listeners_unchanged (h : Host) (repo : RepositoryRef)
    (branches : gmap string string) (subs : list Subscription) :
  (∀ workspaceFolder workspaceUri head,
     OnRepositoryState repo workspaceFolder workspaceUri head ∈ subs →
     ∃ b, Branch_name (heap h) head = Some b ∧ b ≠ "" ∧
          branches !! workspaceUri = Some b) →
  ∀ s, lastBranch s = branches →
    let r := for_of subs (Extension.listener h (RepositoryStateChanged repo)) s in
    trace r = GetChangedFiles <$> watching repo subs ∧
    lastBranch (final r) = branches ∧
    microtasks (final r) = microtasks s ++ showings h (watching repo subs).
Proof.
  induction subs as [|x subs IH]; intros Hall s Hlb; cbn zeta.
  - cbn. by rewrite app_nil_r.
  - rewrite for_of_trace_cons, for_of_final_cons, watching_cons.
    assert (Hrest : ∀ wf u head,
               OnRepositoryState repo wf u head ∈ subs →
               ∃ b, Branch_name (heap h) head = Some b ∧ b ≠ "" ∧
                    branches !! u = Some b)
      by (intros wf u head Hin; apply (Hall wf u head); by right).
    destruct (hears repo x) eqn:Hx.
    + destruct (heard_listener h repo x s Hx) as (wf & u & head & -> & ->).
      destruct (Hall wf u head) as (b & Hname & Hne & Hstored); [left|].
      rewrite (onRepositoryState_unchanged h wf u head s b Hname Hne)
        by (right; by rewrite Hlb).
      cbn [trace final fst snd].
      rewrite bool_decide_eq_true_2 by done.
      set (s1 := set_lastBranch u b
                   (final (then_ (getDeployGitFiles h wf)
                             (ThenShowImpactFor gitImpactView) s))).
      assert (Hlb1 : lastBranch s1 = branches).
      { subst s1. cbn [set_lastBranch lastBranch].
        destruct (getDeployGitFiles h wf); cbn; rewrite Hlb;
          by apply insert_id. }
      assert (Hq1 : microtasks s1
                    = microtasks s
                      ++ match getDeployGitFiles h wf with
                         | Fulfilled files => [ThenShowImpactFor gitImpactView files]
                         | _ => []
                         end).
      { subst s1. cbn [set_lastBranch microtasks].
        destruct (getDeployGitFiles h wf); cbn; by rewrite ?app_nil_r. }
      destruct (IH Hrest s1 Hlb1) as (Ht & Hl & Hq).
      rewrite Ht, Hl, Hq, Hq1, showings_cons, fmap_cons, <- app_assoc. done.
    + rewrite (not_heard_idle h repo x s Hx). cbn [trace final fst snd app].
      destruct (IH Hrest s Hlb) as (Ht & Hl & Hq).
      destruct x; try done. cbn [hears] in Hx. by rewrite Hx.
Qed.

Lemma drain_showings (h : Host) (folders : list WorkspaceFolder) (s : State) :
  trace (for_of (showings h folders) (Extension.run_job h) s) = lookups h folders.
Proof.
  revert s. induction folders as [|wf folders IH]; intros s; [reflexivity|].
  unfold showings, lookups, changed_files. cbn [omap list_omap].
  destruct (getDeployGitFiles h wf); cbn [fmap option_fmap option_map];
    try apply IH.
  rewrite for_of_trace_cons. cbn [Extension.run_job]. f_equal. apply IH.
Qed.

Lemma dispatch_unchanged (h : Host) (repo : RepositoryRef) (s : State) :
  microtasks s = [] →
  (∀ workspaceFolder workspaceUri head,
     OnRepositoryState repo workspaceFolder workspaceUri head ∈ subscriptions s →
     ∃ b, Branch_name (heap h) head = Some b ∧ b ≠ "" ∧
          lastBranch s !! workspaceUri = Some b) →
  let r := Extension.dispatch h (RepositoryStateChanged repo) s in
  trace r
  = (GetChangedFiles <$> watching repo (subscriptions s))
    ++ lookups h (watching repo (subscriptions s)) ∧
  lastBranch (final r) = lastBranch s.
Proof.
  intros Hq Hall. cbn zeta.
  destruct (dispatch_repository_trace h repo s) as [-> ->].
  destruct (listeners_unchanged h repo (lastBranch s) (subscriptions s) Hall s
              eq_refl) as (Ht & Hlb & Hq1).
  rewrite Ht, drain_trace, Hq1, Hq, app_nil_l, drain_showings. done.
Qed.

Lemma count_changed_files (folders : list WorkspaceFolder) :
  count is_request (GetChangedFiles <$> folders) = 0.
Proof. induction folders as [|wf folders IH]; [done | exact IH]. Qed.

Lemma count_lookups (h : Host) (folders : list WorkspaceFolder) :
  count is_request (lookups h folders) = 0.
Proof.
  induction folders as [|wf folders IH]; [done|].
  unfold lookups, changed_files in *. cbn [omap list_omap].
  by destruct (getDeployGitFiles h wf).
Qed.

(** ** C2 *)

(** C2. The claim does not hold of the code. [folderA] has been watched
    since activation, on branch [main], by the one listener of repository 1.
    The repository then has a new HEAD object, named [dev]; the object the
    listener took from [repo.state.HEAD] when it was installed is still
    named [main]. The current branch name is defined and differs from the
    stored one, yet the state change leads to the query for the changed
    files and to their showing: the view is not cleared, no [reloadProject]
    is sent, and the stored name stays [main]. *)
Theorem branch_switch_goes_unnoticed :
  reachable activated ∧
  heard_by 1 (subscriptions activated)
  = [OnRepositoryState 1 folderA "file:///proj/a" 11] ∧
  lastBranch activated !! "file:///proj/a" = Some "main" ∧
  (state_HEAD (heap hostReplacedHead) 1 ≫= Branch_name (heap hostReplacedHead))
  = Some "dev" ∧
  let r := Extension.dispatch hostReplacedHead (RepositoryStateChanged 1) activated in
  trace r = [GetChangedFiles folderA; ShowImpactFor gitImpactView [fileX]] ∧
  count is_request (trace r) = 0 ∧
  lastBranch (final r) !! "file:///proj/a" = Some "main".
Proof.
  split; [exact activated_reachable|]. repeat split; reflexivity.
Qed.

(** ** C4 *)

(** C4, as stated, fails: the branch is unchanged and the one listener of
    the repository reads it, but the query for the changed files fails, and
    then the git-impact view is shown nothing: no lookup, not one. *)
Lemma failed_query_gives_no_lookup :
  ¬ (∀ (h : Host) (s : State) (repo : RepositoryRef)
       (workspaceFolder : WorkspaceFolder) (workspaceUri : string)
       (head : BranchRef) (b : string),
       reachable s →
       OnRepositoryState repo workspaceFolder workspaceUri head ∈ subscriptions s →
       (state_HEAD (heap h) repo ≫= Branch_name (heap h)) = Some b →
       Branch_name (heap h) head = Some b →
       b ≠ "" →
       lastBranch s !! workspaceUri = Some b →
       count is_git_showing
         (trace (Extension.dispatch h (RepositoryStateChanged repo) s)) = 1).
Proof.
  intros H.
  specialize (H hostRejected activated 1 folderA "file:///proj/a" 11 "main"
                activated_reachable activated_watches_folderA eq_refl eq_refl
                ltac:(discriminate) eq_refl).
  vm_compute in H. discriminate H.
Qed.

(** C4, amended. A repository state change arrives between events; the
    current branch name of the repository is [b], defined and not empty;
    every listener installed on the repository reads [b] (the HEAD object
    it holds carries that name), and [b] is the name stored for its
    workspace. Then the event asks for the changed files once for each such
    listener, in their order, and after that shows to the git-impact view,
    once each, the files of the queries that were fulfilled; a query that
    fails or is never answered leads to no showing. No request is sent, so
    no [reloadProject], and [lastBranch] stays as it is. With one listener
    on the repository this is one query and, when it is fulfilled, exactly
    one showing, of exactly the changed files of that workspace folder. *)
Theorem unchanged_branch_event (h : Host) (s : State) (repo : RepositoryRef)
    (b : string) :
  reachable s →
  (state_HEAD (heap h) repo ≫= Branch_name (heap h)) = Some b →
  b ≠ "" →
  (∀ workspaceFolder workspaceUri head,
     OnRepositoryState repo workspaceFolder workspaceUri head ∈ subscriptions s →
     Branch_name (heap h) head = Some b ∧
     lastBranch s !! workspaceUri = Some b) →
  let r := Extension.dispatch h (RepositoryStateChanged repo) s in
  let folders := watching repo (subscriptions s) in
  trace r = (GetChangedFiles <$> folders) ++ lookups h folders ∧
  count is_request (trace r) = 0 ∧
  lastBranch (final r) = lastBranch s ∧
  ∀ workspaceFolder, folders = [workspaceFolder] →
    trace r
    = GetChangedFiles workspaceFolder
        :: match getDeployGitFiles h workspaceFolder with
           | Fulfilled files => [ShowImpactFor gitImpactView files]
           | _ => []
           end.
Proof.
  intros Hreach _ Hne Hall r folders.
  destruct (reachable_steady s Hreach) as [_ Hq].
  destruct (dispatch_unchanged h repo s Hq) as [Ht Hlb].
  { intros wf u head Hin. destruct (Hall wf u head Hin) as [Hname Hstored].
    by exists b. }
  subst r folders. split; [exact Ht|]. split; [|split; [exact Hlb|]].
  - by rewrite Ht, count_app, count_changed_files, count_lookups.
  - intros wf Hone. rewrite Ht, Hone.
    unfold lookups, changed_files. cbn.
    by destruct (getDeployGitFiles h wf).
Qed.

Lemma unchanged_branch_event_witness :
  trace (Extension.dispatch hostMain (RepositoryStateChanged 1) activated)
  = [GetChangedFiles folderA; ShowImpactFor gitImpactView [fileX; fileY]].
Proof.
  refine (proj2 (proj2 (proj2
            (unchanged_branch_event hostMain activated 1 "main"
               activated_reachable eq_refl ltac:(discriminate) _)))
            folderA eq_refl).
  intros wf u head Hin. apply list_elem_of_In in Hin. vm_compute in Hin.
  repeat (destruct Hin as [Hin | Hin]; [try discriminate Hin|]);
    [|destruct Hin].
  injection Hin as <- <- <-. split; reflexivity.
Defined.

(** ** C8 *)

Lemma onRepositoryState_request_bound (h : Host)
    (workspaceFolder : WorkspaceFolder) (workspaceUri : string)
    (head : BranchRef) (s : State) :
  count is_request
    (trace (Extension.onRepositoryState h workspaceFolder workspaceUri head s))
  ≤ 1.
Proof.
  unfold Extension.onRepositoryState.
  destruct (Branch_name (heap h) head) as [cb|]; [|cbn; lia].
  destruct (truthy (Some cb)); [|cbn; lia].
  unfold Extension.showImpactFor, Extension.getChangedFiles. unfold_requests.
  run.
  destruct (truthy (lastBranch s !! workspaceUri)
            && negb (bool_decide (Some cb = lastBranch s !! workspaceUri))).
  - cbn. destruct (requests_client s); cbn; lia.
  - cbn. destruct (getDeployGitFiles h workspaceFolder); cbn; lia.
Qed.

Lemma listeners_request_bound (h : Host) (repo : RepositoryRef)
    (subs : list Subscription) (s : State) :
  count is_request
    (trace (for_of subs (Extension.listener h (RepositoryStateChanged repo)) s))
  ≤ length (heard_by repo subs).
Proof.
  revert s. induction subs as [|x subs IH]; intros s; [cbn; lia|].
  rewrite for_of_trace_cons, count_app, heard_by_cons.
  specialize (IH (final (Extension.listener h (RepositoryStateChanged repo) x s))).
  destruct (hears repo x) eqn:Hx.
  - destruct (heard_listener h repo x s Hx) as (wf & u & head & -> & Hrun).
    rewrite Hrun in *.
    pose proof (onRepositoryState_request_bound h wf u head s). cbn [length]. lia.
  - rewrite (not_heard_idle h repo x s Hx) in *. cbn [trace snd count]. lia.
Qed.

Lemma showings_send_nothing (h : Host) (q : list Job) (s : State) :
  Forall shows_impact q →
  count is_request (trace (for_of q (Extension.run_job h) s)) = 0.
Proof.
  revert s. induction q as [|j q IH]; intros s Hq; [reflexivity|].
  inversion Hq as [|j' q' Hj Hrest]; subst.
  rewrite for_of_trace_cons, count_app, IH by done.
  destruct j; try done.
Qed.

Lemma dispatch_unheard (h : Host) (ev : Event) (s : State) :
  microtasks s = [] →
  registration_of ev = None →
  (∀ repo, ev ≠ RepositoryStateChanged repo) →
  trace (Extension.dispatch h ev s) = [].
Proof.
  intros Hq Hreg Hrepo.
  destruct ev; try discriminate Hreg; try (by destruct (Hrepo repo)).
  - unfold Extension.dispatch. cbv [mbind M_bind gets]. cbn [fst snd].
    rewrite for_of_idle by (intros x _; by apply unheard_event_idle).
    cbn [fst snd Extension.provide]. cbv [mret M_ret]. cbn [fst snd].
    by rewrite (drain_nil h s Hq).
  - by rewrite dispatch_project_children.
Qed.

(** C8, as stated, fails: two watched workspace folders lie in one
    repository; one change of its branch is one event and sends two
    requests, a [reloadProject] for each folder. *)
Lemma one_event_two_requests :
  ¬ (∀ (h : Host) (ev : Event) (s : State),
       reachable s →
       count is_request (trace (Extension.dispatch h ev s)) ≤ 1).
Proof.
  intros H.
  specialize (H (hostTwoFolders "dev") (RepositoryStateChanged 1)
                (final (Extension.activate (hostTwoFolders "main") (initial ∅)))
                (reachable_activate (hostTwoFolders "main") ∅)).
  vm_compute in H. lia.
Qed.

(** C8, amended. The requests an event sends, between events after
    activation, are bounded by the listeners it reaches. A repository state
    change sends at most one request for each listener installed on that
    repository, that is one for each watched workspace folder in it. A
    command that calls a request function (load project, the auto-fix
    picker, auto-fix) sends at most one. A saved document, a change of the
    active editor, a change of the workspace folders, the go-to-file
    command and a request for project children send none. For the events
    [activate] registers a listener for, the bound of one still holds when
    every showing of a non-empty file list to an impact view is counted
    with the requests. *)
Theorem requests_per_event (h : Host) (ev : Event) (s : State) :
  reachable s →
  let r := Extension.dispatch h ev s in
  count is_request (trace r) ≤ request_bound ev s ∧
  (is_Some (registration_of ev) → count outgoing (trace r) ≤ 1).
Proof.
  intros Hreach r. subst r.
  destruct (reachable_steady s Hreach) as [_ Hq].
  assert (Hheard : ∀ sub, registration_of ev = Some sub →
            count is_request (trace (Extension.dispatch h ev s))
            = count is_request (trace (Extension.handle h ev sub s)) ∧
            count outgoing (trace (Extension.dispatch h ev s)) ≤ 1).
  { intros sub Hreg.
    destruct (dispatch_heard_once h ev sub s Hreach Hreg) as [-> _].
    split; [reflexivity|].
    apply (listener_sends_at_most_one h ev sub s Hq). }
  split.
  - destruct ev; cbn [request_bound].
    + rewrite dispatch_unheard by (done || discriminate). cbn [count]. lia.
    + destruct (Hheard _ eq_refl) as [-> _].
      destruct s as [rc ec lb ov subs ch q]. cbn in Hq. subst q.
      destruct e as [[[doc|]]|]; vm_compute; lia.
    + destruct (Hheard _ eq_refl) as [-> _].
      rewrite handle_trace. cbn [Extension.listener].
      unfold Extension.onDidChangeWorkspaceFolders.
      rewrite setupGitEventHandler_trace.
      rewrite drain_nil by (by rewrite setupGitEventHandler_queue).
      cbn. lia.
    + destruct (dispatch_repository_trace h repo s) as [-> _].
      rewrite count_app, drain_trace.
      rewrite showings_send_nothing
        by (apply listeners_repository_queue; rewrite Hq; constructor).
      pose proof (listeners_request_bound h repo (subscriptions s) s). lia.
    + destruct (Hheard _ eq_refl) as [-> _].
      apply (listener_sends_at_most_one h _ _ s Hq).
    + destruct (Hheard _ eq_refl) as [-> _].
      destruct s as [rc ec lb ov subs ch q]. cbn in Hq. subst q.
      destruct node as [[[uri|]]|]; try (vm_compute; lia).
      unfold Extension.handle, Extension.listener, Extension.goToFile. run. cbn.
      destruct (openTextDocument h uri); vm_compute; lia.
    + destruct (Hheard _ eq_refl) as [-> _].
      apply (listener_sends_at_most_one h _ _ s Hq).
    + destruct (Hheard _ eq_refl) as [-> _].
      apply (listener_sends_at_most_one h _ _ s Hq).
    + rewrite dispatch_unheard by (done || discriminate). cbn [count]. lia.
  - intros [sub Hreg]. by destruct (Hheard sub Hreg).
Qed.

Lemma requests_per_event_witness :
  count is_request
    (trace (Extension.dispatch (hostTwoFolders "dev") (RepositoryStateChanged 1)
              (final (Extension.activate (hostTwoFolders "main") (initial ∅)))))
  ≤ 2.
Proof.
  exact (proj1 (requests_per_event (hostTwoFolders "dev")
                  (RepositoryStateChanged 1)
                  (final (Extension.activate (hostTwoFolders "main") (initial ∅)))
                  (reachable_activate (hostTwoFolders "main") ∅))).
Defined.

(** ** The same branch name at two events in a row *)

(** X8. A repository has one listener installed. After a repository state
    change at which that listener read the usable name [b] through the HEAD
    object it holds, [b] is the name stored under its key. When at the
    following state change of the repository the listener reads [b] again,
    the whole event sends no request: it asks once for the changed files of
    the listener's folder, shows them to the git-impact view if the query
    is fulfilled, and leaves [lastBranch] as it is. *)
Theorem repeated_event_sends_nothing (h h' : Host) (repo : RepositoryRef)
    (workspaceFolder : WorkspaceFolder) (workspaceUri : string)
    (head : BranchRef) (b : string) (s : State) :
  reachable s →
  heard_by repo (subscriptions s)
  = [OnRepositoryState repo workspaceFolder workspaceUri head] →
  Branch_name (heap h) head = Some b →
  Branch_name (heap h') head = Some b →
  b ≠ "" →
  let s1 := final (Extension.dispatch h (RepositoryStateChanged repo) s) in
  let r := Extension.dispatch h' (RepositoryStateChanged repo) s1 in
  lastBranch s1 !! workspaceUri = Some b ∧
  count is_request (trace r) = 0 ∧
  trace r
  = GetChangedFiles workspaceFolder
      :: match getDeployGitFiles h' workspaceFolder with
         | Fulfilled files => [ShowImpactFor gitImpactView files]
         | _ => []
         end ∧
  lastBranch (final r) = lastBranch s1.
Proof.
  intros Hreach Hsole Hname Hname' Hne s1 r.
  destruct (reachable_steady s Hreach) as [_ Hq].
  set (sub := OnRepositoryState repo workspaceFolder workspaceUri head) in *.
  assert (Hs1 : s1 = final (Extension.handle h (RepositoryStateChanged repo) sub s))
    by (subst s1; apply (dispatch_sole h repo sub s Hsole)).
  assert (Hsole1 : heard_by repo (subscriptions s1) = [sub]).
  { subst s1. destruct (dispatch_repository_trace h repo s) as [_ ->].
    cbn [set_microtasks subscriptions].
    by rewrite listeners_repository_subscriptions. }
  destruct (dispatch_sole h' repo sub s1 Hsole1) as [Ht Hf].
  subst r. rewrite Ht, Hf, Hs1.
  destruct (listener_rerun_same_branch h h' repo workspaceFolder workspaceUri
              head b s Hq Hname Hname' Hne) as (H1 & _ & H2 & H3 & H4).
  done.
Qed.

Lemma repeated_event_sends_nothing_witness :
  count is_request
    (trace (Extension.dispatch hostDev (RepositoryStateChanged 1)
              (final (Extension.dispatch hostDev (RepositoryStateChanged 1)
                        activated)))) = 0.
Proof.
  exact (proj1 (proj2
           (repeated_event_sends_nothing hostDev hostDev 1 folderA
              "file:///proj/a" 11 "dev" activated activated_reachable
              eq_refl eq_refl eq_refl ltac:(discriminate)))).
Defined.
